(** * fmzip serving pipeline: a shallow embedding of
      [fmzip/pipelines/utils.py] and [fmzip/pipelines/text_generation.py].

    Definitions:
    - [py]: the fragments of the Python runtime the sources rely on
      (exceptions, [str.split], [str.join], slicing, [range], and code that
      mutates a state and may raise);
    - [torch]: the part of [torch.nn.Module] the pipeline calls
      ([get_submodule], [named_modules], [__setattr__] with a module value);
    - [utils]: the GPU probe and [get_submodules];
    - [text_generation]: [_get_submodules] and [MixedPrecisionModel];
    - [as_stated]: the submodule triple in the words of its description;
    - [examples]: concrete machines, models and collaborators;
    - [binding]: the loop bodies of [generate] and the predicates used to
      speak about them;
    - [tree]: module trees with distinct, dot-free submodule names;
    - [generic]: the submodule helper over any attribute lookup;
    - [examples2], [requests]: two deltas of different widths, and the
      modules a request list asks to bind.

    Then the facts, in this order: strings and dictionaries, the GPU probe,
    the two submodule helpers, binding, [generate], [load_delta], names that
    do not resolve, names that resolve and the rows of the output, more on
    the GPU probe, module trees, the helper over any lookup, the failures
    of [generate] and how calls compose.

    Left out of the embedding: logging and timing ([logger.info], [timer]),
    the loading of the tokenizer and of the base model in [__init__], and
    the device a module lives on. *)

From stdpp Require Import gmap strings list fin_maps.
From Stdlib Require Import Ascii ZArith Lia.

Local Open Scope string_scope.
Local Open Scope list_scope.

(* ===================================================================== *)
(** ** Python runtime fragments *)
(* ===================================================================== *)
Module py.

(** The exceptions that can surface in the modelled code.  [ExternalError]
    stands for whatever an external collaborator (tokenizer, driver,
    checkpoint loader, forward pass) raises. *)
Inductive exn : Type :=
  | KeyError (key : string)
  | IndexError
  | AttributeError (item : string)
  | TypeError (name : string)
  | ExternalError (what : string).

Inductive result (A : Type) : Type :=
  | Ok (a : A)
  | Raise (e : exn).
Arguments Ok {A} a.
Arguments Raise {A} e.

Definition bind {A B} (r : result A) (k : A → result B) : result B :=
  match r with
  | Ok a => k a
  | Raise e => Raise e
  end.

Definition is_ok {A} (r : result A) : bool :=
  match r with Ok _ => true | Raise _ => false end.

(** [s.split(sep)] for a one-character separator: the fields between the
    occurrences of [sep]; never the empty list. *)
Fixpoint split (sep : Ascii.ascii) (s : string) : list string :=
  match s with
  | EmptyString => [EmptyString]
  | String c rest =>
      if decide (c = sep) then EmptyString :: split sep rest
      else match split sep rest with
           | field :: fields => String c field :: fields
           | [] => [String c EmptyString]
           end
  end.

(** [sep.join(l)]. *)
Fixpoint join (sep : string) (l : list string) : string :=
  match l with
  | [] => EmptyString
  | [x] => x
  | x :: rest => x +:+ sep +:+ join sep rest
  end.

(** [l[:-1]]: the slice that stops one before the end (empty on []). *)
Definition but_last {A} (l : list A) : list A := take (length l - 1) l.

(** [l[-1]]: raises [IndexError] on the empty list. *)
Definition item_last {A} (l : list A) : result A :=
  match last l with
  | Some x => Ok x
  | None => Raise IndexError
  end.

(** [list(range(n))]. *)
Definition range (n : nat) : list nat := seq 0 n.

(** The number of occurrences of a character. *)
Fixpoint count_char (c : Ascii.ascii) (s : string) : nat :=
  match s with
  | EmptyString => 0
  | String a rest => (if decide (a = c) then 1 else 0) + count_char c rest
  end.

Definition free_of (c : Ascii.ascii) (s : string) : Prop := count_char c s = 0.

(** Code that reads and writes a state of type [S] and may raise: a raised
    exception keeps the writes made before it. *)
Definition Exec (S A : Type) : Type := S → result A * S.

Definition ret {S A} (a : A) : Exec S A := λ s, (Ok a, s).

Definition lift {S A} (r : result A) : Exec S A := λ s, (r, s).

Definition and_then {S A B} (c : Exec S A) (k : A → Exec S B) : Exec S B :=
  λ s, match c s with
       | (Ok a, s') => k a s'
       | (Raise e, s') => (Raise e, s')
       end.

Definition gets {S A} (f : S → A) : Exec S A := λ s, (Ok (f s), s).

Definition modify {S} (f : S → S) : Exec S unit := λ s, (Ok tt, f s).

(** [for x in l: body(x)]. *)
Fixpoint for_each {S A} (l : list A) (body : A → Exec S unit) : Exec S unit :=
  match l with
  | [] => ret tt
  | x :: rest => and_then (body x) (λ _, for_each rest body)
  end.

End py.

Notation "'let!' x ':=' c 'in' k" := (py.and_then c (λ x, k))
  (at level 10, x pattern, c at level 100, k at level 200,
   format "'[v' 'let!'  x  :=  c  'in' '/' k ']'").
Notation "'let?' x ':=' r 'in' k" := (py.bind r (λ x, k))
  (at level 10, x pattern, r at level 100, k at level 200,
   format "'[v' 'let?'  x  :=  r  'in' '/' k ']'").

(* ===================================================================== *)
(** ** The part of [torch.nn.Module] used by the pipeline *)
(* ===================================================================== *)
Module torch.
Import py.

Inductive Device : Type := cpu | cuda.

(** A tensor: its rows of integers and the device it lives on. *)
Record Tensor : Type := { data : list (list Z); device : Device }.

(** [t.to(d)]. *)
Definition to (d : Device) (t : Tensor) : Tensor :=
  {| data := data t; device := d |}.

(** A module: its registered parameters and its registered submodules, both
    insertion-ordered dictionaries ([_parameters], [_modules]).  Modules are
    kept by value (a tree): buffers, hooks, [None] entries and the sharing of
    one module object under two names are not represented. *)
#[local] Set Warnings "-register-all".
Inductive nn_Module : Type :=
  | Mod (parameters : list (string * Tensor))
        (modules : list (string * nn_Module)).

Definition _parameters (m : nn_Module) : list (string * Tensor) :=
  match m with Mod ps _ => ps end.
Definition _modules (m : nn_Module) : list (string * nn_Module) :=
  match m with Mod _ ms => ms end.

(** Dictionaries as insertion-ordered association lists: [d.get(k)] and
    [d[k] = v] (an existing key keeps its place, a new key goes last). *)
Fixpoint dict_get {V} (k : string) (d : list (string * V)) : option V :=
  match d with
  | [] => None
  | (k', v) :: rest => if decide (k = k') then Some v else dict_get k rest
  end.

Fixpoint dict_set {V} (k : string) (v : V) (d : list (string * V))
  : list (string * V) :=
  match d with
  | [] => [(k, v)]
  | (k', v') :: rest =>
      if decide (k = k') then (k, v) :: rest else (k', v') :: dict_set k v rest
  end.

(** One step of [get_submodule]'s loop: [hasattr], [getattr] and the
    [isinstance(_, Module)] test; an attribute that is missing or is not a
    module raises [AttributeError].  The attributes of a module are taken
    to be its registered submodules: attributes that Python finds before
    them (methods such as [forward], properties, instance attributes) are
    not represented, so this is the lookup of a module none of whose
    registered names is hidden by such an attribute and none of whose other
    attributes holds a module.  The module [generic] below leaves the
    lookup open. *)
Definition getattr_module (m : nn_Module) (item : string) : result nn_Module :=
  match dict_get item (_modules m) with
  | Some child => Ok child
  | None => Raise (AttributeError item)
  end.

(** The loop of [get_submodule] over the atoms of the target. *)
Fixpoint descend (m : nn_Module) (atoms : list string) : result nn_Module :=
  match atoms with
  | [] => Ok m
  | item :: rest => bind (getattr_module m item) (λ child, descend child rest)
  end.

(** [self.get_submodule(target)]. *)
Definition get_submodule (self : nn_Module) (target : string) : result nn_Module :=
  if decide (target = "") then Ok self
  else descend self (split "."%char target).

(** [prefix + ('.' if prefix else '') + name]. *)
Definition qualify (prefix name : string) : string :=
  prefix +:+ (if decide (prefix = "") then "" else ".") +:+ name.

(** [self.named_modules(prefix=prefix)], in generation order: the module
    itself, then each registered submodule's own enumeration (in a tree no
    module is met twice, so nothing is skipped as a duplicate). *)
Fixpoint named_modules (prefix : string) (self : nn_Module)
  : list (string * nn_Module) :=
  match self with
  | Mod _ ms =>
      (prefix, self) ::
      (fix children (l : list (string * nn_Module)) :=
         match l with
         | [] => []
         | (name, module) :: rest =>
             (named_modules (qualify prefix name) module ++ children rest)%list
         end) ms
  end.

(** [self.named_parameters()]: every module's own parameters under the
    module's qualified name. *)
Definition named_parameters (self : nn_Module) : list (string * Tensor) :=
  mbind (M := list) (λ '(module_prefix, module),
    (λ '(k, v), (qualify module_prefix k, v)) <$> _parameters module)
    (named_modules "" self).

(** [setattr(self, name, value)] for a module [value], as
    [nn.Module.__setattr__] does it: a name already registered as a
    parameter raises [TypeError]; otherwise [_modules[name] = value]. *)
Definition setattr_module (self : nn_Module) (name : string) (value : nn_Module)
  : result nn_Module :=
  if decide (name ∈ (_parameters self).*1) then Raise (TypeError name)
  else Ok (Mod (_parameters self) (dict_set name value (_modules self))).

End torch.

(* ===================================================================== *)
(** ** [fmzip/pipelines/utils.py] *)
(* ===================================================================== *)
Module utils.
Import py torch.

(** The NVML binding the probe imports: the outcome of [nvmlInit()] and of
    [nvmlDeviceGetCount()] on this machine. *)
Record pynvml : Type := {
  nvmlInit : result unit;
  nvmlDeviceGetCount : result nat
}.

(** The process state the module touches: [os.environ] and the module-level
    flag [nvml_is_initialized]. *)
Record Process : Type := {
  environ : gmap string string;
  nvml_is_initialized : bool
}.

Definition set_environ (k v : string) (p : Process) : Process :=
  {| environ := <[k := v]> (environ p);
     nvml_is_initialized := nvml_is_initialized p |}.

Definition set_initialized (b : bool) (p : Process) : Process :=
  {| environ := environ p; nvml_is_initialized := b |}.

Definition initialize (nvml : pynvml) : Exec Process unit :=
  let! initialized := gets nvml_is_initialized in
  if negb initialized then
    let! _ := modify (set_environ "CUDA_DEVICE_ORDER" "PCI_BUS_ID") in
    let! _ := lift (nvmlInit nvml) in
    modify (set_initialized true)
  else ret tt.

Definition _get_gpu_count (nvml : pynvml) : Exec Process nat :=
  let! _ := initialize nvml in
  lift (nvmlDeviceGetCount nvml).

Definition get_available_gpus (nvml : pynvml) : Exec Process (list nat) :=
  let! gpus := gets (λ p, environ p !! "CUDA_VISIBLE_DEVICES") in
  match gpus with
  | None =>
      let! n := _get_gpu_count nvml in
      ret (range n)
  | Some gpus =>
      let total_gpus := length ((λ x, x) <$> split "," gpus) in
      ret (range total_gpus)
  end.

Definition get_gpu_count (nvml : pynvml) : Exec Process nat :=
  let! gpus := get_available_gpus nvml in
  ret (length gpus).

Definition get_submodules (model : nn_Module) (key : string)
  : result (nn_Module * nn_Module * string) :=
  let? parent := get_submodule model (join "." (but_last (split "." key))) in
  let? target_name := item_last (split "." key) in
  let? target := get_submodule model key in
  Ok (parent, target, target_name).

End utils.

(* ===================================================================== *)
(** ** [fmzip/pipelines/text_generation.py] *)
(* ===================================================================== *)
Module text_generation.
Import py torch.

Definition _get_submodules (model : nn_Module) (key : string)
  : result (nn_Module * nn_Module * string) :=
  let? parent := get_submodule model (join "." (but_last (split "." key))) in
  let? target_name := item_last (split "." key) in
  let? target := get_submodule model key in
  Ok (parent, target, target_name).

(** What the tokenizer returns and [generate] receives as keyword
    arguments: the two entries the pipeline touches. *)
Record BatchEncoding : Type := {
  input_ids : Tensor;
  attention_mask : Tensor
}.

(** A loaded delta: the object [from_compressed] returned, known by its
    identity [ident], and its [.model]. *)
Record Checkpoint : Type := {
  ident : nat;
  model : nn_Module
}.

(** The collaborators the pipeline calls and does not define:
    - [tokenizer prompts]: [self.tokenizer(prompts, return_tensors='pt',
      padding=True)];
    - [base_generate m batch]: [generate] of the base model in state [m] on
      the keyword arguments [batch];
    - [from_compressed n path]: the [.model] of
      [AutoFMZipModelForCausalLM.from_compressed(path, unpack=False)] when it
      is the [n]-th object the loader creates. *)
Record Collaborators : Type := {
  tokenizer : list string → result BatchEncoding;
  base_generate : nn_Module → BatchEncoding → result Tensor;
  from_compressed : nat → string → result nn_Module
}.

(** Calls that leave the pipeline, in the order they happen (kept only to
    state what was called and how often). *)
Inductive Event : Type :=
  | LoadAdapter (delta_model : string)
  | Forward (base : nn_Module) (batch : BatchEncoding)
  | Print (output : Tensor).

(** The fields of a [MixedPrecisionModel] instance, the count of loader
    objects created so far and the calls made so far. *)
Record MixedPrecisionModel : Type := {
  base_model : nn_Module;
  model_pool : gmap string Checkpoint;
  created : nat;
  calls : list Event
}.

Definition set_base_model (m : nn_Module) (self : MixedPrecisionModel)
  : MixedPrecisionModel :=
  {| base_model := m; model_pool := model_pool self;
     created := created self; calls := calls self |}.

Definition set_pool_item (k : string) (c : Checkpoint) (self : MixedPrecisionModel)
  : MixedPrecisionModel :=
  {| base_model := base_model self; model_pool := <[k := c]> (model_pool self);
     created := created self; calls := calls self |}.

Definition record_call (e : Event) (self : MixedPrecisionModel)
  : MixedPrecisionModel :=
  {| base_model := base_model self; model_pool := model_pool self;
     created := created self; calls := calls self ++ [e] |}.

Definition new_object (self : MixedPrecisionModel) : MixedPrecisionModel :=
  {| base_model := base_model self; model_pool := model_pool self;
     created := S (created self); calls := calls self |}.

(** [__init__], after the base model has been loaded and moved: the pool
    starts empty. *)
Definition init (base : nn_Module) : MixedPrecisionModel :=
  {| base_model := base; model_pool := ∅; created := 0; calls := [] |}.

(** [self.model_pool[delta]]. *)
Definition pool_getitem (delta : string) : Exec MixedPrecisionModel Checkpoint :=
  λ self, match model_pool self !! delta with
          | Some c => (Ok c, self)
          | None => (Raise (KeyError delta), self)
          end.

(** [setattr(self.base_model, 'delta', module)]. *)
Definition setattr_base (name : string) (module : nn_Module)
  : Exec MixedPrecisionModel unit :=
  λ self, match setattr_module (base_model self) name module with
          | Ok m => (Ok tt, set_base_model m self)
          | Raise e => (Raise e, self)
          end.

Definition prepare_batch (inputs : list (string * string))
    (tokenizer : list string → result BatchEncoding)
    (model : nn_Module) (lora_map : option (gmap string nat))
  : result BatchEncoding :=
  let? batch := tokenizer ((λ inp, inp.1) <$> inputs) in
  let batch := {| input_ids := to cuda (input_ids batch);
                  attention_mask := attention_mask batch |} in
  let batch := {| input_ids := input_ids batch;
                  attention_mask := to cuda (attention_mask batch) |} in
  Ok batch.

Definition generate (ext : Collaborators) (queries : list (string * string))
  : Exec MixedPrecisionModel Tensor :=
  let! base := gets base_model in
  let! batch := lift (prepare_batch queries (tokenizer ext) base None) in
  let deltas := (λ x, x.2) <$> queries in
  let! _ := for_each deltas (λ delta,
    let! entry := pool_getitem delta in
    for_each (named_modules "" (model entry)) (λ '(key, module),
      let key_to_base := key in
      let! base := gets base_model in
      let! base_module := lift (_get_submodules base key_to_base) in
      setattr_base "delta" module)) in
  let! base := gets base_model in
  let! _ := modify (record_call (Forward base batch)) in
  let! output := lift (base_generate ext base batch) in
  let! _ := modify (record_call (Print output)) in
  ret output.

Definition load_delta (ext : Collaborators) (delta_model : string)
  : Exec MixedPrecisionModel unit :=
  let! n := gets created in
  let! _ := modify (record_call (LoadAdapter delta_model)) in
  let! loaded := lift (from_compressed ext n delta_model) in
  let! _ := modify new_object in
  modify (set_pool_item delta_model {| ident := n; model := loaded |}).

Definition forward : Exec MixedPrecisionModel unit := ret tt.

End text_generation.

(* ===================================================================== *)
(** ** The submodule triple as the documentation words it *)
(* ===================================================================== *)
Module as_stated.
Import py torch.

(** The part of a qualified name before its last dot (empty when the name
    has no dot). *)
Fixpoint dotted_prefix (key : string) : string :=
  match key with
  | EmptyString => EmptyString
  | String c rest =>
      if decide (count_char "." rest = 0) then EmptyString
      else String c (dotted_prefix rest)
  end.

(** The part of a qualified name after its last dot (the whole name when it
    has no dot). *)
Fixpoint last_component (key : string) : string :=
  match key with
  | EmptyString => EmptyString
  | String c rest =>
      if decide (count_char "." rest = 0)
      then (if decide (c = "."%char) then rest else String c rest)
      else last_component rest
  end.

(** (parent submodule at the dotted prefix of [key], submodule at [key],
    last dot-separated component of [key]). *)
Definition submodule_triple (model : nn_Module) (key : string)
  : result (nn_Module * nn_Module * string) :=
  let? parent := get_submodule model (dotted_prefix key) in
  let? target := get_submodule model key in
  Ok (parent, target, last_component key).

End as_stated.

(* ===================================================================== *)
(** ** Concrete machines, models and collaborators used in the examples *)
(* ===================================================================== *)
Module examples.
Import py torch.

(** A machine whose driver reports four devices. *)
Definition four_gpus : utils.pynvml :=
  {| utils.nvmlInit := Ok tt; utils.nvmlDeviceGetCount := Ok 4 |}.

Definition process_with (visible : option string) : utils.Process :=
  {| utils.environ :=
       match visible with
       | Some v => {[ "CUDA_VISIBLE_DEVICES" := v ]}
       | None => ∅
       end;
     utils.nvml_is_initialized := false |}.

(** A base model with one layer holding one weight. *)
Definition weights (x : Z) : Tensor := {| data := [[x]]; device := cuda |}.

Definition base : nn_Module :=
  Mod [] [("layer", Mod [("weight", weights 1)] [])].

(** A delta computed against [base]: the same tree, other tensors. *)
Definition matching_delta : nn_Module :=
  Mod [] [("layer", Mod [("qweight", weights 7)] [])].

(** A delta computed against another architecture. *)
Definition foreign_delta : nn_Module :=
  Mod [] [("head", Mod [("qweight", weights 9)] [])].

(** A tokenizer giving one row per prompt (its length), a generator that
    extends every row by the number of parameters the model has at the
    time, and a loader that knows the path [foreign]. *)
Definition collaborators : text_generation.Collaborators :=
  {| text_generation.tokenizer := λ prompts,
       Ok {| text_generation.input_ids :=
               {| data := (λ p, [Z.of_nat (String.length p)]) <$> prompts;
                  device := cpu |};
             text_generation.attention_mask :=
               {| data := (λ _, [1%Z]) <$> prompts; device := cpu |} |};
     text_generation.base_generate := λ m batch,
       Ok {| data := (λ row, row ++ [Z.of_nat (length (named_parameters m))])
                       <$> data (text_generation.input_ids batch);
             device := cuda |};
     text_generation.from_compressed := λ n path,
       if decide (path = "foreign") then Ok foreign_delta
       else Ok matching_delta |}.



(** The state after [__init__] on [base] and the given [load_delta] calls. *)
Definition loaded (paths : list string) : text_generation.MixedPrecisionModel :=
  (for_each paths (text_generation.load_delta collaborators)
     (text_generation.init base)).2.

End examples.

(* ===================================================================== *)
(** ** The loop bodies of [generate], named *)
(* ===================================================================== *)
Module binding.
Import py torch.

(** The body of the inner loop of [generate], for one (key, module). *)
Definition bind_module (km : string * nn_Module)
  : Exec text_generation.MixedPrecisionModel unit :=
  let '(key, module) := km in
  let key_to_base := key in
  let! base := gets text_generation.base_model in
  let! base_module := lift (text_generation._get_submodules base key_to_base) in
  text_generation.setattr_base "delta" module.

(** The body of the outer loop, for one delta identifier. *)
Definition bind_delta (delta : string)
  : Exec text_generation.MixedPrecisionModel unit :=
  let! entry := text_generation.pool_getitem delta in
  for_each (named_modules "" (text_generation.model entry)) bind_module.

(** A module with its [delta] attribute (re)bound to [module]. *)
Definition with_delta (self module : nn_Module) : nn_Module :=
  Mod (_parameters self) (dict_set "delta" module (_modules self)).

(** A tokenized batch moved to the accelerator. *)
Definition on_cuda (raw : text_generation.BatchEncoding)
  : text_generation.BatchEncoding :=
  {| text_generation.input_ids := to cuda (text_generation.input_ids raw);
     text_generation.attention_mask :=
       to cuda (text_generation.attention_mask raw) |}.

(** The batches handed to the base model's [generate], oldest first. *)
Definition forward_batches (calls : list text_generation.Event)
  : list text_generation.BatchEncoding :=
  omap (λ e, match e with
             | text_generation.Forward _ batch => Some batch
             | _ => None
             end) calls.

(** The identifiers handed to the load adapter, oldest first. *)
Definition adapter_loads (calls : list text_generation.Event) : list string :=
  omap (λ e, match e with
             | text_generation.LoadAdapter delta_model => Some delta_model
             | _ => None
             end) calls.

(** A name of some checkpoint that does not resolve in the base model and
    does not start with the component [delta]. *)
Definition unresolved (base : nn_Module) (key : string) : Prop :=
  head (split "." key) ≠ Some "delta" ∧ is_ok (get_submodule base key) = false.

(** The base model has no parameter called [delta]. *)
Definition free_delta (s : text_generation.MixedPrecisionModel) : Prop :=
  "delta" ∉ (_parameters (text_generation.base_model s)).*1.


(** A pipeline that differs from [self] at most in the [delta] attribute of
    its base model. *)
Inductive rebound (self : text_generation.MixedPrecisionModel)
  : text_generation.MixedPrecisionModel → Prop :=
  | rebound_same : rebound self self
  | rebound_delta m :
      rebound self
        (text_generation.set_base_model
           (with_delta (text_generation.base_model self) m) self).

End binding.

(* ===================================================================== *)
(** ** Module trees as [torch] builds them *)
(* ===================================================================== *)
Module tree.
Import py torch.

(** A name that can stand as one component of a qualified name: not empty
    and without a dot.  ([add_module] refuses the others; it also refuses a
    name that is already an attribute of the module, which is not
    expressible here: see [generic.reaches_children].) *)
Definition atom (name : string) : Prop := name ≠ "" ∧ free_of "." name.

(** A module whose submodule names, at every level, are distinct atoms. *)
Fixpoint well_formed (m : nn_Module) : Prop :=
  match m with
  | Mod _ ms =>
      NoDup ms.*1 ∧ Forall atom ms.*1
      ∧ (fix all (l : list (string * nn_Module)) : Prop :=
           match l with
           | [] => True
           | (_, child) :: rest => well_formed child ∧ all rest
           end) ms
  end.

(** The submodules of a module with the list of names leading to each, in
    the order [named_modules] enumerates them. *)
Fixpoint named_paths (m : nn_Module) : list (list string * nn_Module) :=
  match m with
  | Mod _ ms =>
      ([], m) ::
      (fix children (l : list (string * nn_Module)) :=
         match l with
         | [] => []
         | (name, child) :: rest =>
             ((λ ps, (name :: ps.1, ps.2)) <$> named_paths child) ++ children rest
         end) ms
  end.

End tree.

(* ===================================================================== *)
(** ** The submodule helper over any attribute lookup *)
(* ===================================================================== *)
Module generic.
Import py torch.

Section lookup.
(** [getattr m item]: what the [hasattr], [getattr], [isinstance] step of
    [get_submodule] yields for the attribute [item] of [m], whatever way
    Python finds attributes. *)
Variable getattr : nn_Module → string → result nn_Module.

Fixpoint descend (m : nn_Module) (atoms : list string) : result nn_Module :=
  match atoms with
  | [] => Ok m
  | item :: rest => bind (getattr m item) (λ child, descend child rest)
  end.

(** [self.get_submodule(target)]. *)
Definition get_submodule (self : nn_Module) (target : string) : result nn_Module :=
  if decide (target = "") then Ok self
  else descend self (split "." target).

(** [get_submodules(model, key)] of [utils.py] (and [_get_submodules] of
    [text_generation.py]). *)
Definition get_submodules (model : nn_Module) (key : string)
  : result (nn_Module * nn_Module * string) :=
  let? parent := get_submodule model (join "." (but_last (split "." key))) in
  let? target_name := item_last (split "." key) in
  let? target := get_submodule model key in
  Ok (parent, target, target_name).

(** Throughout [m], attribute lookup finds every registered submodule under
    its name: no registered name is hidden by another attribute. *)
Definition reaches_children (m : nn_Module) : Prop :=
  ∀ path x, (path, x) ∈ tree.named_paths m →
  ∀ name child, dict_get name (_modules x) = Some child →
  getattr x name = Ok child.

End lookup.

End generic.

(* ===================================================================== *)
(** ** More examples: two deltas of different widths *)
(* ===================================================================== *)
Module examples2.
Import py torch.

(** A second delta computed against [examples.base], with two tensors in
    its layer. *)
Definition wide_delta : nn_Module :=
  Mod [] [("layer", Mod [("qweight", examples.weights 7);
                         ("qzeros", examples.weights 0)] [])].

(** The collaborators of [examples], with a loader that knows the path
    [wide]. *)
Definition collaborators : text_generation.Collaborators :=
  {| text_generation.tokenizer :=
       text_generation.tokenizer examples.collaborators;
     text_generation.base_generate :=
       text_generation.base_generate examples.collaborators;
     text_generation.from_compressed := λ n path,
       if decide (path = "wide") then Ok wide_delta
       else Ok examples.matching_delta |}.

(** The state after [__init__] on [examples.base] and the given
    [load_delta] calls. *)
Definition loaded (paths : list string) : text_generation.MixedPrecisionModel :=
  (for_each paths (text_generation.load_delta collaborators)
     (text_generation.init examples.base)).2.

End examples2.

(* ===================================================================== *)
(** ** What a request list asks to bind *)
(* ===================================================================== *)
Module requests.
Import py torch.

(** A module enumerated from the checkpoint of one of the requested
    deltas. *)
Definition requested_module (self : text_generation.MixedPrecisionModel)
    (deltas : list string) (module : nn_Module) : Prop :=
  ∃ delta entry key,
    delta ∈ deltas
    ∧ text_generation.model_pool self !! delta = Some entry
    ∧ (key, module) ∈ named_modules "" (text_generation.model entry).

End requests.

(* ===================================================================== *)
(** ** Facts about the Python fragments *)
(* ===================================================================== *)
Import py torch.

Lemma split_nonempty sep s : split sep s ≠ [].
Proof.
  destruct s as [|c rest]; simpl; [done|].
  case_decide; [done|]. by destruct (split sep rest).
Qed.

Lemma split_length sep s : length (split sep s) = S (count_char sep s).
Proof.
  induction s as [|c rest IH]; simpl; [done|].
  case_decide; simpl; [by rewrite IH|].
  destruct (split sep rest) as [|f fs] eqn:E; simpl in *; lia.
Qed.

Lemma split_free sep s : free_of sep s → split sep s = [s].
Proof.
  unfold free_of. induction s as [|c rest IH]; simpl; [done|].
  case_decide; [lia|]. intros Hfree. rewrite IH; [done|lia].
Qed.

Lemma split_app_sep sep f s :
  free_of sep f → split sep (f +:+ String sep s) = f :: split sep s.
Proof.
  unfold free_of. induction f as [|c rest IH]; simpl.
  - intros _. by rewrite decide_True.
  - case_decide; [lia|]. intros Hfree. rewrite IH; [done|lia].
Qed.

(** Splitting undoes joining, for at least one field and separator-free
    fields. *)
Lemma split_join sep fields :
  fields ≠ [] → Forall (free_of sep) fields →
  split sep (join (String sep EmptyString) fields) = fields.
Proof.
  induction fields as [|f [|g rest] IH]; intros Hne Hall; [done| |].
  - simpl. apply split_free. by inversion Hall.
  - inversion Hall as [|? ? Hf Hrest]; subst.
    change (join (String sep "") (f :: g :: rest))
      with (f +:+ String sep "" +:+ join (String sep "") (g :: rest)).
    change (f +:+ String sep "" +:+ join (String sep "") (g :: rest))
      with (f +:+ String sep (join (String sep "") (g :: rest))).
    rewrite split_app_sep by done. f_equal. by apply IH.
Qed.


Lemma but_last_cons {A} (x y : A) l : but_last (x :: y :: l) = x :: but_last (y :: l).
Proof. unfold but_last. simpl. by rewrite Nat.sub_0_r. Qed.

Lemma join_push sep c f l : join sep (String c f :: l) = String c (join sep (f :: l)).
Proof. by destruct l. Qed.

Lemma split_one_iff sep s fs f :
  split sep s = f :: fs → (fs = [] ↔ count_char sep s = 0).
Proof.
  intros E. pose proof (split_length sep s) as L. rewrite E in L. simpl in L.
  split; [intros ->; simpl in L; lia|].
  intros Z0. destruct fs; [done|]. simpl in L. lia.
Qed.

(** The prefix the code builds by splitting, slicing and joining is the
    text before the last dot. *)
Lemma join_but_last_split key :
  join "." (but_last (split "." key)) = as_stated.dotted_prefix key.
Proof.
  induction key as [|c rest IH]; [done|].
  simpl. destruct (split "." rest) as [|f fs] eqn:E.
  { by destruct (split_nonempty "." rest). }
  pose proof (split_one_iff _ _ _ _ E) as Hone.
  case_decide as Hc.
  - destruct fs as [|g fs].
    + rewrite decide_True by by apply Hone. done.
    + rewrite decide_False by (intros Z0; by apply Hone in Z0).
      rewrite <- IH, !but_last_cons. by subst c.
  - destruct fs as [|g fs].
    + rewrite decide_True by by apply Hone. done.
    + rewrite decide_False by (intros Z0; by apply Hone in Z0).
      rewrite but_last_cons, join_push. f_equal. rewrite <- IH.
      by rewrite but_last_cons.
Qed.

(** The last field of the split is the text after the last dot. *)
Lemma item_last_split key :
  item_last (split "." key) = Ok (as_stated.last_component key).
Proof.
  unfold item_last. induction key as [|c rest IH]; [done|].
  simpl. destruct (split "." rest) as [|f fs] eqn:E.
  { by destruct (split_nonempty "." rest). }
  pose proof (split_one_iff _ _ _ _ E) as Hone.
  case_decide as Hc; destruct fs as [|g fs].
  - rewrite decide_True by by apply Hone.
    assert (count_char "." rest = 0) as Z0 by by apply Hone.
    apply split_free in Z0. rewrite Z0 in E. by inversion E.
  - rewrite decide_False by (intros Z0; by apply Hone in Z0).
    by rewrite <- IH.
  - rewrite decide_True by by apply Hone.
    assert (count_char "." rest = 0) as Z0 by by apply Hone.
    apply split_free in Z0. rewrite Z0 in E. by inversion E.
  - rewrite decide_False by (intros Z0; by apply Hone in Z0).
    by rewrite <- IH.
Qed.

Lemma dict_get_set_eq {V} k (v : V) d : dict_get k (dict_set k v d) = Some v.
Proof.
  induction d as [|[k' v'] rest IH]; simpl; [by rewrite decide_True|].
  case_decide; simpl; [by rewrite decide_True|]. by rewrite decide_False.
Qed.

Lemma dict_get_set_ne {V} k k' (v : V) d :
  k ≠ k' → dict_get k' (dict_set k v d) = dict_get k' d.
Proof.
  intros Hne. induction d as [|[k0 v0] rest IH]; simpl.
  - by rewrite decide_False.
  - case_decide; subst; simpl.
    + by rewrite !decide_False.
    + case_decide; [done|apply IH].
Qed.

Lemma dict_set_set {V} k (v w : V) d :
  dict_set k w (dict_set k v d) = dict_set k w d.
Proof.
  induction d as [|[k' v'] rest IH]; simpl; [by rewrite decide_True|].
  case_decide; simpl; [by rewrite decide_True|].
  rewrite decide_False by done. by rewrite IH.
Qed.

(** The enumeration of a module starts with the module itself. *)
Lemma named_modules_head prefix self :
  ∃ rest, named_modules prefix self = (prefix, self) :: rest.
Proof. destruct self. simpl. eauto. Qed.

Lemma get_submodule_root self : get_submodule self "" = Ok self.
Proof. done. Qed.

(* ===================================================================== *)
(** ** The GPU probe *)
(* ===================================================================== *)
Section probe.
Variable nvml : utils.pynvml.

Lemma get_available_gpus_set (p : utils.Process) (gpus : string) :
  utils.environ p !! "CUDA_VISIBLE_DEVICES" = Some gpus →
  utils.get_available_gpus nvml p
  = (Ok (seq 0 (S (count_char "," gpus))), p).
Proof.
  intros Hset. unfold utils.get_available_gpus, and_then, gets, ret. simpl.
  rewrite Hset. by rewrite length_fmap, split_length.
Qed.

Lemma get_available_gpus_unset (p : utils.Process) :
  utils.environ p !! "CUDA_VISIBLE_DEVICES" = None →
  (utils.get_available_gpus nvml p).1
  = (let? _ := (if utils.nvml_is_initialized p then Ok tt
                else utils.nvmlInit nvml) in
     let? k := utils.nvmlDeviceGetCount nvml in
     Ok (seq 0 k)).
Proof.
  intros Hunset.
  unfold utils.get_available_gpus, utils._get_gpu_count, utils.initialize.
  unfold and_then, gets, ret, lift, modify. simpl. rewrite Hunset.
  destruct (utils.nvml_is_initialized p); simpl.
  - by destruct (utils.nvmlDeviceGetCount nvml).
  - destruct (utils.nvmlInit nvml) as [[]|]; simpl; [|done].
    by destruct (utils.nvmlDeviceGetCount nvml).
Qed.

(** C8.  The probe honours [CUDA_VISIBLE_DEVICES]: when the variable holds a
    comma-separated list of [n] fields (at least one, none containing a
    comma) the probe returns [0, ..., n-1] and leaves the process as it was;
    when it is unset and the driver initialises and reports [k] devices the
    probe returns [0, ..., k-1]; and [get_gpu_count] returns the length of
    whatever [get_available_gpus] returns (and fails exactly when it
    fails). *)
Theorem get_available_gpus_honors_visibility (p : utils.Process) :
  (∀ fields : list string,
      fields ≠ [] → Forall (free_of ",") fields →
      utils.environ p !! "CUDA_VISIBLE_DEVICES" = Some (join "," fields) →
      utils.get_available_gpus nvml p = (Ok (seq 0 (length fields)), p))
  ∧ (∀ k : nat,
      utils.environ p !! "CUDA_VISIBLE_DEVICES" = None →
      utils.nvmlInit nvml = Ok tt →
      utils.nvmlDeviceGetCount nvml = Ok k →
      (utils.get_available_gpus nvml p).1 = Ok (seq 0 k))
  ∧ utils.get_gpu_count nvml p
    = (match (utils.get_available_gpus nvml p).1 with
       | Ok gpus => Ok (length gpus)
       | Raise e => Raise e
       end, (utils.get_available_gpus nvml p).2).
Proof.
  split; [|split].
  - intros fields Hne Hfree Hset.
    rewrite (get_available_gpus_set _ _ Hset).
    pose proof (split_length "," (join "," fields)) as Hlen.
    rewrite (split_join "," fields Hne Hfree) in Hlen. by rewrite <- Hlen.
  - intros k Hunset Hinit Hcount.
    rewrite (get_available_gpus_unset _ Hunset), Hinit, Hcount.
    by destruct (utils.nvml_is_initialized p).
  - unfold utils.get_gpu_count, and_then, ret.
    by destruct (utils.get_available_gpus nvml p) as [[gpus|e] p'].
Qed.

(** C10.  With [CUDA_VISIBLE_DEVICES] set to the empty string the probe
    returns the one-element sequence [0]: splitting the empty string on
    commas yields one (empty) field. *)
Theorem get_available_gpus_empty_string (p : utils.Process) :
  utils.environ p !! "CUDA_VISIBLE_DEVICES" = Some "" →
  split "," "" = [""]
  ∧ utils.get_available_gpus nvml p = (Ok [0], p).
Proof.
  intros Hset. split; [done|]. by rewrite (get_available_gpus_set _ _ Hset).
Qed.

End probe.

Lemma get_available_gpus_honors_visibility_witness :
  utils.get_available_gpus examples.four_gpus
    (examples.process_with (Some "0,2,5"))
  = (Ok [0; 1; 2], examples.process_with (Some "0,2,5"))
  ∧ (utils.get_available_gpus examples.four_gpus (examples.process_with None)).1
    = Ok [0; 1; 2; 3].
Proof.
  pose proof (get_available_gpus_honors_visibility examples.four_gpus
                (examples.process_with (Some "0,2,5"))) as [Hset _].
  pose proof (get_available_gpus_honors_visibility examples.four_gpus
                (examples.process_with None)) as [_ [Hunset _]].
  split.
  - apply (Hset ["0"; "2"; "5"]); [done| |reflexivity].
    repeat constructor.
  - apply (Hunset 4); reflexivity.
Defined.

Lemma get_available_gpus_empty_string_witness :
  split "," "" = [""]
  ∧ utils.get_available_gpus examples.four_gpus (examples.process_with (Some ""))
    = (Ok [0], examples.process_with (Some "")).
Proof.
  apply (get_available_gpus_empty_string examples.four_gpus
           (examples.process_with (Some ""))).
  reflexivity.
Defined.

(* ===================================================================== *)
(** ** The two submodule helpers *)
(* ===================================================================== *)

Lemma get_submodules_as_stated model key :
  utils.get_submodules model key = as_stated.submodule_triple model key.
Proof.
  unfold utils.get_submodules, as_stated.submodule_triple.
  rewrite join_but_last_split, item_last_split. done.
Qed.

(** C9.  [_get_submodules] of the serving pipeline and [get_submodules] of
    the utilities module are the same function, and its value is the triple
    (parent submodule at the dotted prefix of the key, submodule at the key,
    last dot-separated component of the key); it fails when either
    submodule does not resolve. *)
Theorem get_submodules_helpers_agree (model : nn_Module) (key : string) :
  text_generation._get_submodules model key = utils.get_submodules model key
  ∧ text_generation._get_submodules model key
    = as_stated.submodule_triple model key.
Proof.
  split.
  - reflexivity.
  - unfold text_generation._get_submodules, as_stated.submodule_triple.
    by rewrite join_but_last_split, item_last_split.
Qed.

(* ===================================================================== *)
(** ** Binding: what the loops of [generate] do to the pipeline *)
(* ===================================================================== *)
Import binding.

Lemma generate_unfold ext queries :
  text_generation.generate ext queries
  = (let! base := gets text_generation.base_model in
     let! batch := lift (text_generation.prepare_batch queries
                           (text_generation.tokenizer ext) base None) in
     let! _ := for_each (queries.*2) bind_delta in
     let! base := gets text_generation.base_model in
     let! _ := modify (text_generation.record_call
                         (text_generation.Forward base batch)) in
     let! output := lift (text_generation.base_generate ext base batch) in
     let! _ := modify (text_generation.record_call (text_generation.Print output)) in
     ret output).
Proof. reflexivity. Qed.

Lemma prepare_batch_eq inputs tok model lora_map :
  text_generation.prepare_batch inputs tok model lora_map
  = (let? raw := tok (inputs.*1) in Ok (on_cuda raw)).
Proof. reflexivity. Qed.

Lemma with_delta_twice b m1 m2 : with_delta (with_delta b m1) m2 = with_delta b m2.
Proof. unfold with_delta. simpl. by rewrite dict_set_set. Qed.

Lemma with_delta_delta b m : dict_get "delta" (_modules (with_delta b m)) = Some m.
Proof. apply dict_get_set_eq. Qed.

Lemma with_delta_other b m name :
  name ≠ "delta" →
  dict_get name (_modules (with_delta b m)) = dict_get name (_modules b).
Proof. intros Hne. by apply dict_get_set_ne. Qed.

Lemma dict_set_same {V} k (v : V) d : dict_get k d = Some v → dict_set k v d = d.
Proof.
  induction d as [|[k' v'] rest IH]; simpl; [done|].
  case_decide as Hk; [by intros [= ->]; subst k'|].
  intros Hget. by rewrite IH.
Qed.

(** Binding [delta] changes nothing exactly when [delta] already holds the
    module. *)
Lemma with_delta_same_iff b m :
  with_delta b m = b ↔ dict_get "delta" (_modules b) = Some m.
Proof.
  split.
  - intros Hsame. rewrite <- Hsame at 1. apply with_delta_delta.
  - intros Hget. destruct b as [ps ms]. unfold with_delta. simpl in *.
    by rewrite dict_set_same.
Qed.

Lemma set_base_model_twice m1 m2 self :
  text_generation.set_base_model m2 (text_generation.set_base_model m1 self)
  = text_generation.set_base_model m2 self.
Proof. done. Qed.

Lemma rebound_trans s1 s2 s3 : rebound s1 s2 → rebound s2 s3 → rebound s1 s3.
Proof.
  intros [|m1] [|m2]; try constructor.
  simpl. rewrite with_delta_twice, set_base_model_twice. constructor.
Qed.

Lemma rebound_pool s s' :
  rebound s s' →
  text_generation.model_pool s' = text_generation.model_pool s
  ∧ text_generation.created s' = text_generation.created s
  ∧ text_generation.calls s' = text_generation.calls s
  ∧ _parameters (text_generation.base_model s')
    = _parameters (text_generation.base_model s).
Proof. by intros [|m]. Qed.

Lemma rebound_other s s' name :
  rebound s s' → name ≠ "delta" →
  dict_get name (_modules (text_generation.base_model s'))
  = dict_get name (_modules (text_generation.base_model s)).
Proof. intros [|m] Hne; [done|]. simpl. by apply with_delta_other. Qed.

(** One step of the inner loop, case by case. *)
Lemma bind_module_step key module self :
  bind_module (key, module) self
  = match text_generation._get_submodules (text_generation.base_model self) key with
    | Raise e => (Raise e, self)
    | Ok _ =>
        if decide ("delta" ∈ (_parameters (text_generation.base_model self)).*1)
        then (Raise (TypeError "delta"), self)
        else (Ok tt, text_generation.set_base_model
                       (with_delta (text_generation.base_model self) module) self)
    end.
Proof.
  unfold bind_module, and_then, gets, lift, text_generation.setattr_base. simpl.
  destruct (text_generation._get_submodules _ key); [|done].
  unfold setattr_module. by case_decide.
Qed.

Lemma bind_module_rebound km self r self' :
  bind_module km self = (r, self') → rebound self self'.
Proof.
  destruct km as [key module]. rewrite bind_module_step.
  destruct (text_generation._get_submodules _ key).
  - case_decide; intros [= <- <-]; constructor.
  - intros [= <- <-]. constructor.
Qed.

Lemma for_each_rebound {A} (body : A → Exec text_generation.MixedPrecisionModel unit) :
  (∀ x s r s', body x s = (r, s') → rebound s s') →
  ∀ l s r s', for_each l body s = (r, s') → rebound s s'.
Proof.
  intros Hbody l. induction l as [|x rest IH]; intros s r s'; simpl.
  - intros [= <- <-]. constructor.
  - unfold and_then. destruct (body x s) as [[[]|e] s1] eqn:E.
    + intros Hrest. eapply rebound_trans; [by eapply Hbody|by eapply IH].
    + intros [= <- <-]. by eapply Hbody.
Qed.

Lemma bind_delta_rebound delta self r self' :
  bind_delta delta self = (r, self') → rebound self self'.
Proof.
  unfold bind_delta, and_then, text_generation.pool_getitem.
  destruct (text_generation.model_pool self !! delta) as [entry|].
  - apply for_each_rebound. intros. by eapply bind_module_rebound.
  - intros [= <- <-]. constructor.
Qed.

(** A successful run of the inner loop leaves [delta] bound to the last
    module enumerated. *)
Lemma bind_modules_ok l self self' :
  for_each l bind_module self = (Ok tt, self') →
  match last l with
  | None => self' = self
  | Some (_, module) =>
      self' = text_generation.set_base_model
                (with_delta (text_generation.base_model self) module) self
  end.
Proof.
  revert self. induction l as [|[key module] rest IH]; intros self; cbn [for_each].
  - by intros [= <-].
  - unfold and_then at 1. rewrite bind_module_step.
    destruct (text_generation._get_submodules _ key); [|done].
    case_decide; [done|]. intros Hrest. apply IH in Hrest.
    destruct rest as [|km rest']; [done|].
    change (last ((key, module) :: km :: rest')) with (last (km :: rest')).
    destruct (last (km :: rest')) as [[k' m']|] eqn:El.
    + rewrite Hrest. simpl. by rewrite with_delta_twice.
    + by rewrite last_cons in El; destruct (last rest').
Qed.

Lemma named_modules_last prefix m : is_Some (last (named_modules prefix m)).
Proof.
  destruct (named_modules_head prefix m) as [rest ->].
  rewrite last_cons. destruct (last rest); eauto.
Qed.

(** A successful run of the outer loop leaves [delta] bound to the last
    module of the last delta's checkpoint. *)
Lemma bind_deltas_ok deltas self self' :
  for_each deltas bind_delta self = (Ok tt, self') →
  match last deltas with
  | None => self' = self
  | Some delta =>
      ∃ entry key module,
        text_generation.model_pool self !! delta = Some entry
        ∧ last (named_modules "" (text_generation.model entry)) = Some (key, module)
        ∧ self' = text_generation.set_base_model
                    (with_delta (text_generation.base_model self) module) self
  end.
Proof.
  revert self. induction deltas as [|delta rest IH]; intros self; cbn [for_each].
  - by intros [= <-].
  - unfold and_then at 1.
    destruct (bind_delta delta self) as [[[]|e] s1] eqn:E; [|done].
    intros Hrest. pose proof (bind_delta_rebound _ _ _ _ E) as Hreb.
    apply IH in Hrest. destruct rest as [|d' rest'].
    + simpl in *. subst self'. clear IH Hreb.
      unfold bind_delta, and_then, text_generation.pool_getitem in E.
      destruct (text_generation.model_pool self !! delta) as [entry|]; [|done].
      apply bind_modules_ok in E.
      destruct (named_modules_last "" (text_generation.model entry)) as [[k m] Hl].
      rewrite Hl in E. eauto 10.
    + change (last (delta :: d' :: rest')) with (last (d' :: rest')).
      destruct (last (d' :: rest')) as [dl|] eqn:El;
        [|by rewrite last_cons in El; destruct (last rest')].
      destruct Hrest as (entry & key & module & Hpool & Hlast & ->).
      destruct (rebound_pool _ _ Hreb) as (Hp & _).
      exists entry, key, module. rewrite <- Hp. split; [done|]. split; [done|].
      destruct Hreb as [|m1]; [done|]. simpl.
      by rewrite with_delta_twice.
Qed.

(* ===================================================================== *)
(** ** [generate] *)
(* ===================================================================== *)

(** A successful [generate], step by step. *)
Lemma generate_ok ext queries self out self' :
  text_generation.generate ext queries self = (Ok out, self') →
  ∃ raw bound,
    text_generation.tokenizer ext (queries.*1) = Ok raw
    ∧ for_each (queries.*2) bind_delta self = (Ok tt, bound)
    ∧ text_generation.base_generate ext (text_generation.base_model bound)
        (on_cuda raw) = Ok out
    ∧ self' = text_generation.record_call (text_generation.Print out)
                (text_generation.record_call
                   (text_generation.Forward (text_generation.base_model bound)
                      (on_cuda raw)) bound).
Proof.
  rewrite generate_unfold. unfold and_then at 1. unfold gets at 1.
  unfold and_then at 1. unfold lift at 1. rewrite prepare_batch_eq.
  destruct (text_generation.tokenizer ext (queries.*1)) as [raw|e]; [|done].
  simpl bind. cbv beta iota.
  unfold and_then at 1.
  destruct (for_each (queries.*2) bind_delta self) as [[[]|e] bound]; [|done].
  unfold and_then, gets, modify, lift, ret. simpl.
  destruct (text_generation.base_generate ext _ _) as [o|e] eqn:Egen; [|done].
  intros [= <- <-]. exists raw, bound. by rewrite Egen.
Qed.

(** Whatever its outcome, [generate] changes the base model at most in its
    [delta] attribute and leaves the pool alone. *)
Lemma generate_rebound ext queries self r self' :
  text_generation.generate ext queries self = (r, self') →
  ∃ bound, rebound self bound
    ∧ text_generation.base_model self' = text_generation.base_model bound
    ∧ text_generation.model_pool self' = text_generation.model_pool bound.
Proof.
  rewrite generate_unfold. unfold and_then at 1. unfold gets at 1.
  unfold and_then at 1. unfold lift at 1. rewrite prepare_batch_eq.
  destruct (text_generation.tokenizer ext (queries.*1)) as [raw|e].
  2:{ intros [= <- <-]. exists self. split; [constructor|done]. }
  simpl bind. cbv beta iota. unfold and_then at 1.
  destruct (for_each (queries.*2) bind_delta self) as [[[]|e] bound] eqn:E.
  2:{ intros [= <- <-]. exists bound. split; [|done].
      eapply for_each_rebound; [|exact E]. intros. by eapply bind_delta_rebound. }
  assert (rebound self bound) as Hreb.
  { eapply for_each_rebound; [|exact E]. intros. by eapply bind_delta_rebound. }
  unfold and_then, gets, modify, lift, ret. simpl.
  destruct (text_generation.base_generate ext _ _) as [o|e];
    intros [= <- <-]; by exists bound.
Qed.

(** C1, as the code has it.  [generate] binds and never unbinds: whatever
    its outcome, the pool, the base model's own parameters and every
    attribute of the base model other than [delta] are as before; and after
    a successful call on a non-empty request list the attribute [delta] is
    left holding the last module enumerated from the last request's
    checkpoint, so that the base model equals its state before the call
    exactly when [delta] already held that module (on an empty list the
    base model is untouched). *)
Theorem generate_leaves_delta_bound ext queries self r self' :
  text_generation.generate ext queries self = (r, self') →
  text_generation.model_pool self' = text_generation.model_pool self
  ∧ _parameters (text_generation.base_model self')
    = _parameters (text_generation.base_model self)
  ∧ (∀ name, name ≠ "delta" →
       dict_get name (_modules (text_generation.base_model self'))
       = dict_get name (_modules (text_generation.base_model self)))
  ∧ (∀ out, r = Ok out →
       match last queries with
       | None =>
           text_generation.base_model self' = text_generation.base_model self
       | Some (_, delta) =>
           ∃ entry key module,
             text_generation.model_pool self !! delta = Some entry
             ∧ last (named_modules "" (text_generation.model entry))
               = Some (key, module)
             ∧ text_generation.base_model self'
               = with_delta (text_generation.base_model self) module
             ∧ dict_get "delta" (_modules (text_generation.base_model self'))
               = Some module
             ∧ (text_generation.base_model self' = text_generation.base_model self
                ↔ dict_get "delta" (_modules (text_generation.base_model self))
                  = Some module)
       end).
Proof.
  intros Hrun. destruct (generate_rebound _ _ _ _ _ Hrun) as (bound & Hreb & Hb & Hp).
  destruct (rebound_pool _ _ Hreb) as (Hpool & _ & _ & Hparams).
  repeat split.
  - congruence.
  - congruence.
  - intros name Hne. rewrite Hb. by apply rebound_other.
  - intros out ->. clear bound Hreb Hb Hp Hpool Hparams.
    apply generate_ok in Hrun as (raw & bound & _ & Hloop & _ & ->).
    apply bind_deltas_ok in Hloop. rewrite fmap_last in Hloop.
    destruct (last queries) as [[prompt delta]|]; simpl in *.
    + destruct Hloop as (entry & key & module & Hpool & Hlast & ->).
      exists entry, key, module.
      split; [done|]. split; [done|]. split; [done|].
      split; [apply with_delta_delta|]. apply with_delta_same_iff.
    + by subst bound.
Qed.

Lemma generate_leaves_delta_bound_witness :
  dict_get "delta"
    (_modules (text_generation.base_model
       (text_generation.generate examples.collaborators [("hi", "d1")]
          (examples.loaded ["d1"])).2))
  = Some (Mod [("qweight", examples.weights 7)] [])
  ∧ dict_get "layer"
      (_modules (text_generation.base_model
         (text_generation.generate examples.collaborators [("hi", "d1")]
            (examples.loaded ["d1"])).2))
    = Some (Mod [("weight", examples.weights 1)] []).
Proof.
  destruct (generate_leaves_delta_bound examples.collaborators [("hi", "d1")]
              (examples.loaded ["d1"]) _ _ (surjective_pairing _))
    as (_ & _ & Hother & Hlast).
  split.
  - destruct (Hlast _ eq_refl)
      as (entry & key & module & Hpool & Hmod & _ & Hdelta & _).
    vm_compute in Hpool. injection Hpool as <-.
    vm_compute in Hmod. injection Hmod as <- <-. exact Hdelta.
  - etransitivity; [by apply Hother|reflexivity].
Defined.

(** C1: a successful [generate] on [base] with a matching delta loaded
    leaves [base] with a submodule [delta] it did not have (and so with one
    more named parameter): nothing is unbound. *)
Lemma generate_does_not_unbind :
  text_generation.base_model (examples.loaded ["d1"]) = examples.base
  ∧ (text_generation.generate examples.collaborators [("hi", "d1")]
       (examples.loaded ["d1"])).1
    = Ok {| data := [[2%Z; 2%Z]]; device := cuda |}
  ∧ text_generation.base_model
      (text_generation.generate examples.collaborators [("hi", "d1")]
         (examples.loaded ["d1"])).2
    = Mod [] [("layer", Mod [("weight", examples.weights 1)] []);
              ("delta", Mod [("qweight", examples.weights 7)] [])]
  ∧ text_generation.base_model
      (text_generation.generate examples.collaborators [("hi", "d1")]
         (examples.loaded ["d1"])).2
    ≠ examples.base
  ∧ named_parameters examples.base = [("layer.weight", examples.weights 1)]
  ∧ named_parameters
      (text_generation.base_model
         (text_generation.generate examples.collaborators [("hi", "d1")]
            (examples.loaded ["d1"])).2)
    = [("layer.weight", examples.weights 1);
       ("delta.qweight", examples.weights 7)].
Proof. repeat split; try reflexivity. vm_compute. discriminate. Qed.

Lemma forward_batches_app l1 l2 :
  forward_batches (l1 ++ l2) = forward_batches l1 ++ forward_batches l2.
Proof. unfold forward_batches. apply omap_app. Qed.

(** C2, as the code has it.  [generate] never partitions: a successful call
    runs exactly one forward pass, on the batch tokenized from all prompts
    in request order, after every request's delta has been bound in turn;
    the model that pass sees is the one [generate] leaves behind. *)
Theorem generate_runs_one_forward_pass ext queries self out self' :
  text_generation.generate ext queries self = (Ok out, self') →
  ∃ raw,
    text_generation.tokenizer ext (queries.*1) = Ok raw
    ∧ forward_batches (text_generation.calls self')
      = forward_batches (text_generation.calls self) ++ [on_cuda raw]
    ∧ text_generation.calls self'
      = text_generation.calls self
        ++ [text_generation.Forward (text_generation.base_model self') (on_cuda raw);
            text_generation.Print out]
    ∧ text_generation.base_generate ext (text_generation.base_model self')
        (on_cuda raw) = Ok out.
Proof.
  intros Hrun. apply generate_ok in Hrun as (raw & bound & Htok & Hloop & Hgen & ->).
  assert (rebound self bound) as Hreb.
  { eapply for_each_rebound; [|exact Hloop]. intros. by eapply bind_delta_rebound. }
  destruct (rebound_pool _ _ Hreb) as (_ & _ & Hcalls & _).
  exists raw. split; [done|].
  assert (text_generation.calls
            (text_generation.record_call (text_generation.Print out)
               (text_generation.record_call
                  (text_generation.Forward (text_generation.base_model bound)
                     (on_cuda raw)) bound))
          = text_generation.calls self
            ++ [text_generation.Forward (text_generation.base_model bound) (on_cuda raw);
                text_generation.Print out]) as Hc.
  { simpl. rewrite Hcalls. by rewrite <- app_assoc. }
  split; [|split; [exact Hc|exact Hgen]].
  rewrite Hc, forward_batches_app. done.
Qed.

Lemma generate_runs_one_forward_pass_witness :
  ∃ raw,
    text_generation.tokenizer examples.collaborators ["a"; "b"; "c"; "d"] = Ok raw
    ∧ forward_batches
        (text_generation.calls
           (text_generation.generate examples.collaborators
              [("a", "d1"); ("b", "d2"); ("c", "d1"); ("d", "d2")]
              (examples.loaded ["d1"; "d2"])).2)
      = [] ++ [on_cuda raw].
Proof.
  destruct (generate_runs_one_forward_pass examples.collaborators
              [("a", "d1"); ("b", "d2"); ("c", "d1"); ("d", "d2")]
              (examples.loaded ["d1"; "d2"]) _ _ (surjective_pairing _))
    as (raw & Htok & Hfw & _).
  exists raw. split; [exact Htok|exact Hfw].
Defined.

(** C2: four requests naming two distinct deltas, both resident, run as one
    forward pass over all four rows, not as two sub-batches. *)
Lemma mixed_batch_is_not_split :
  length (remove_dups ["d1"; "d2"; "d1"; "d2"]) = 2
  ∧ forward_batches
      (text_generation.calls
         (text_generation.generate examples.collaborators
            [("a", "d1"); ("b", "d2"); ("c", "d1"); ("d", "d2")]
            (examples.loaded ["d1"; "d2"])).2)
    = [ {| text_generation.input_ids :=
             {| data := [[1%Z]; [1%Z]; [1%Z]; [1%Z]]; device := cuda |};
           text_generation.attention_mask :=
             {| data := [[1%Z]; [1%Z]; [1%Z]; [1%Z]]; device := cuda |} |} ]
  ∧ is_ok (text_generation.generate examples.collaborators
             [("a", "d1"); ("b", "d2"); ("c", "d1"); ("d", "d2")]
             (examples.loaded ["d1"; "d2"])).1 = true.
Proof. repeat split; reflexivity. Qed.

(** C7, as the code has it.  [prepare_batch] has no size limit: whatever the
    number of requests, it returns the tokenizer's batch for all prompts,
    moved to the accelerator, and it raises only what the tokenizer
    raises. *)
Theorem prepare_batch_has_no_size_limit
    (inputs : list (string * string))
    (tok : list string → result text_generation.BatchEncoding)
    (model : nn_Module) (lora_map : option (gmap string nat)) :
  (∀ raw, tok (inputs.*1) = Ok raw →
     ∃ batch,
       text_generation.prepare_batch inputs tok model lora_map = Ok batch
       ∧ data (text_generation.input_ids batch)
         = data (text_generation.input_ids raw)
       ∧ data (text_generation.attention_mask batch)
         = data (text_generation.attention_mask raw)
       ∧ device (text_generation.input_ids batch) = cuda
       ∧ device (text_generation.attention_mask batch) = cuda)
  ∧ (∀ e, text_generation.prepare_batch inputs tok model lora_map = Raise e →
       tok (inputs.*1) = Raise e).
Proof.
  rewrite prepare_batch_eq. split.
  - intros raw ->. by exists (on_cuda raw).
  - intros e. by destruct (tok (inputs.*1)).
Qed.

Lemma prepare_batch_has_no_size_limit_witness :
  ∃ batch,
    text_generation.prepare_batch [("a", "d1"); ("b", "d1"); ("c", "d1")]
      (text_generation.tokenizer examples.collaborators) examples.base None
    = Ok batch
    ∧ data (text_generation.input_ids batch) = [[1%Z]; [1%Z]; [1%Z]].
Proof.
  destruct (prepare_batch_has_no_size_limit [("a", "d1"); ("b", "d1"); ("c", "d1")]
              (text_generation.tokenizer examples.collaborators)
              examples.base None) as [Hok _].
  destruct (Hok _ eq_refl) as (batch & Hbatch & Hrows & _).
  exists batch. split; [exact Hbatch|exact Hrows].
Defined.

(** C7: with a maximum batch size of 2 in mind, three requests are
    prepared without any error and go on to a forward pass of three rows. *)
Lemma oversized_batch_is_prepared :
  2 < length [("a", "d1"); ("b", "d1"); ("c", "d1")]
  ∧ text_generation.prepare_batch [("a", "d1"); ("b", "d1"); ("c", "d1")]
      (text_generation.tokenizer examples.collaborators) examples.base None
    = Ok {| text_generation.input_ids :=
              {| data := [[1%Z]; [1%Z]; [1%Z]]; device := cuda |};
            text_generation.attention_mask :=
              {| data := [[1%Z]; [1%Z]; [1%Z]]; device := cuda |} |}
  ∧ (text_generation.generate examples.collaborators
       [("a", "d1"); ("b", "d1"); ("c", "d1")] (examples.loaded ["d1"])).1
    = Ok {| data := [[1%Z; 2%Z]; [1%Z; 2%Z]; [1%Z; 2%Z]]; device := cuda |}.
Proof. split; [simpl; lia|]. split; reflexivity. Qed.

(* ===================================================================== *)
(** ** [load_delta] and the pool *)
(* ===================================================================== *)

Lemma adapter_loads_app l1 l2 :
  adapter_loads (l1 ++ l2) = adapter_loads l1 ++ adapter_loads l2.
Proof. unfold adapter_loads. apply omap_app. Qed.

(** One call of [load_delta], case by case on the loader's outcome. *)
Lemma load_delta_step ext delta_model self :
  text_generation.load_delta ext delta_model self
  = match text_generation.from_compressed ext (text_generation.created self)
            delta_model with
    | Ok loaded =>
        (Ok tt,
         {| text_generation.base_model := text_generation.base_model self;
            text_generation.model_pool :=
              <[delta_model := {| text_generation.ident := text_generation.created self;
                                  text_generation.model := loaded |}]>
                (text_generation.model_pool self);
            text_generation.created := S (text_generation.created self);
            text_generation.calls :=
              text_generation.calls self
              ++ [text_generation.LoadAdapter delta_model] |})
    | Raise e =>
        (Raise e,
         text_generation.record_call (text_generation.LoadAdapter delta_model) self)
    end.
Proof.
  unfold text_generation.load_delta, and_then, gets, modify, lift. simpl.
  by destruct (text_generation.from_compressed ext _ delta_model).
Qed.

(** C4, as the code has it.  [load_delta] does not look at the pool before
    loading: two successful calls for one identifier invoke the load adapter
    twice, and the second rebinds the identifier to the object the second
    invocation created (a different object from the first); the set of
    resident identifiers and every other entry are the same after the
    second call as after the first. *)
Theorem load_delta_twice_loads_twice ext delta_model self s1 s2 :
  text_generation.load_delta ext delta_model self = (Ok tt, s1) →
  text_generation.load_delta ext delta_model s1 = (Ok tt, s2) →
  ∃ first second,
    text_generation.model_pool s1 !! delta_model = Some first
    ∧ text_generation.model_pool s2 !! delta_model = Some second
    ∧ text_generation.ident first = text_generation.created self
    ∧ text_generation.ident second = S (text_generation.created self)
    ∧ text_generation.from_compressed ext (text_generation.ident first) delta_model
      = Ok (text_generation.model first)
    ∧ text_generation.from_compressed ext (text_generation.ident second) delta_model
      = Ok (text_generation.model second)
    ∧ adapter_loads (text_generation.calls s2)
      = adapter_loads (text_generation.calls self) ++ [delta_model; delta_model]
    ∧ dom (text_generation.model_pool s2) = dom (text_generation.model_pool s1)
    ∧ (∀ k, k ≠ delta_model →
         text_generation.model_pool s2 !! k = text_generation.model_pool s1 !! k).
Proof.
  rewrite load_delta_step.
  destruct (text_generation.from_compressed ext (text_generation.created self)
              delta_model) as [m1|] eqn:E1; [|done].
  intros [= <-]. rewrite load_delta_step. simpl.
  destruct (text_generation.from_compressed ext (S (text_generation.created self))
              delta_model) as [m2|] eqn:E2; [|done].
  intros [= <-]. simpl.
  eexists _, _. split; [apply lookup_insert_eq|]. split; [apply lookup_insert_eq|].
  simpl. repeat split; try done.
  - by rewrite !adapter_loads_app, <- app_assoc.
  - rewrite insert_insert_eq. by rewrite !dom_insert_L.
  - intros k Hne. by rewrite !lookup_insert_ne.
Qed.

Lemma load_delta_twice_loads_twice_witness :
  ∃ first second,
    text_generation.model_pool (examples.loaded ["d1"]) !! "d1" = Some first
    ∧ text_generation.model_pool (examples.loaded ["d1"; "d1"]) !! "d1" = Some second
    ∧ text_generation.ident first = 0
    ∧ text_generation.ident second = 1.
Proof.
  destruct (load_delta_twice_loads_twice examples.collaborators "d1"
              (text_generation.init examples.base)
              (examples.loaded ["d1"]) (examples.loaded ["d1"; "d1"])
              eq_refl eq_refl)
    as (first & second & H1 & H2 & H3 & H4 & _).
  exists first, second. repeat split; assumption.
Defined.

(** C4: loading the same identifier twice, with nothing evicted in between,
    invokes the load adapter twice and replaces object 0 by object 1. *)
Lemma second_load_invokes_adapter_again :
  adapter_loads (text_generation.calls (examples.loaded ["d1"; "d1"]))
  = ["d1"; "d1"]
  ∧ text_generation.ident <$> text_generation.model_pool (examples.loaded ["d1"]) !! "d1"
    = Some 0
  ∧ text_generation.ident
      <$> text_generation.model_pool (examples.loaded ["d1"; "d1"]) !! "d1"
    = Some 1
  ∧ (for_each ["d1"; "d1"] (text_generation.load_delta examples.collaborators)
       (text_generation.init examples.base)).1 = Ok tt.
Proof. repeat split; reflexivity. Qed.

(** C5, as the code has it.  [load_delta] has no capacity and evicts
    nothing: every other identifier keeps its entry; a successful load of a
    non-resident identifier makes the pool one larger, whatever its size;
    and the only error it raises is the loader's own, in which case the pool
    is unchanged. *)
Theorem load_delta_never_evicts ext delta_model self r self' :
  text_generation.load_delta ext delta_model self = (r, self') →
  (∀ k, k ≠ delta_model →
     text_generation.model_pool self' !! k = text_generation.model_pool self !! k)
  ∧ (r = Ok tt →
       is_Some (text_generation.model_pool self' !! delta_model)
       ∧ (text_generation.model_pool self !! delta_model = None →
            size (text_generation.model_pool self')
            = S (size (text_generation.model_pool self))))
  ∧ (∀ e, r = Raise e →
       text_generation.from_compressed ext (text_generation.created self) delta_model
       = Raise e
       ∧ text_generation.model_pool self' = text_generation.model_pool self).
Proof.
  rewrite load_delta_step.
  destruct (text_generation.from_compressed ext _ delta_model) as [m|e0];
    intros [= <- <-]; simpl.
  - split; [|split].
    + intros k Hne. by rewrite lookup_insert_ne.
    + intros _. split; [rewrite lookup_insert_eq; eauto|].
      intros Hnone. by apply map_size_insert_None.
    + intros e [=].
  - split; [done|]. split; [intros [=]|]. by intros e [= ->].
Qed.

Lemma load_delta_never_evicts_witness :
  text_generation.model_pool (examples.loaded ["a"; "b"; "c"]) !! "a"
  = text_generation.model_pool (examples.loaded ["a"; "b"]) !! "a"
  ∧ size (text_generation.model_pool (examples.loaded ["a"; "b"; "c"]))
    = S (size (text_generation.model_pool (examples.loaded ["a"; "b"]))).
Proof.
  destruct (load_delta_never_evicts examples.collaborators "c"
              (examples.loaded ["a"; "b"]) (Ok tt) (examples.loaded ["a"; "b"; "c"])
              eq_refl) as (Hkeep & Hgrow & _).
  split.
  - by apply Hkeep.
  - by apply Hgrow.
Defined.

(** C5: with a capacity of 2 in mind, loading a third distinct identifier
    succeeds without evicting anything: three identifiers are resident. *)
Lemma third_load_evicts_nothing :
  size (text_generation.model_pool (examples.loaded ["a"; "b"])) = 2
  ∧ (text_generation.load_delta examples.collaborators "c"
       (examples.loaded ["a"; "b"])).1 = Ok tt
  ∧ size (text_generation.model_pool
            (text_generation.load_delta examples.collaborators "c"
               (examples.loaded ["a"; "b"])).2) = 3
  ∧ text_generation.ident
      <$> text_generation.model_pool
            (text_generation.load_delta examples.collaborators "c"
               (examples.loaded ["a"; "b"])).2 !! "a" = Some 0
  ∧ text_generation.ident
      <$> text_generation.model_pool
            (text_generation.load_delta examples.collaborators "c"
               (examples.loaded ["a"; "b"])).2 !! "b" = Some 1.
Proof. repeat split; reflexivity. Qed.

(* ===================================================================== *)
(** ** Names that do not resolve *)
(* ===================================================================== *)

Lemma descend_raises m atoms e :
  descend m atoms = Raise e → ∃ item, e = AttributeError item.
Proof.
  revert m. induction atoms as [|a rest IH]; intros m; simpl; [done|].
  unfold getattr_module. destruct (dict_get a (_modules m)) as [child|]; simpl.
  - apply IH.
  - intros [= <-]. eauto.
Qed.

Lemma get_submodule_raises m target e :
  get_submodule m target = Raise e → ∃ item, e = AttributeError item.
Proof. unfold get_submodule. case_decide; [done|]. apply descend_raises. Qed.

(** The helper raises nothing but [AttributeError]. *)
Lemma _get_submodules_raises m key e :
  text_generation._get_submodules m key = Raise e → ∃ item, e = AttributeError item.
Proof.
  unfold text_generation._get_submodules. rewrite item_last_split.
  destruct (get_submodule m (join "." _)) as [parent|e1] eqn:E1; simpl.
  - destruct (get_submodule m key) as [target|e2] eqn:E2; simpl; [done|].
    intros [= <-]. by eapply get_submodule_raises.
  - intros [= <-]. by eapply get_submodule_raises.
Qed.

(** It raises whenever the key itself does not resolve. *)
Lemma _get_submodules_unresolved m key e :
  get_submodule m key = Raise e →
  ∃ e', text_generation._get_submodules m key = Raise e'.
Proof.
  intros Hkey. unfold text_generation._get_submodules. rewrite item_last_split.
  destruct (get_submodule m (join "." _)) as [parent|e1]; simpl; [|eauto].
  rewrite Hkey. simpl. eauto.
Qed.

(** Binding [delta] does not change how a name resolves, unless the name
    starts with the component [delta]. *)
Lemma get_submodule_with_delta b m key :
  key ≠ "" → head (split "." key) ≠ Some "delta" →
  get_submodule (with_delta b m) key = get_submodule b key.
Proof.
  intros Hne Hhead. unfold get_submodule. rewrite !decide_False by done.
  destruct (split "." key) as [|a rest] eqn:E;
    [by destruct (split_nonempty "." key)|]. simpl in *.
  unfold getattr_module. rewrite with_delta_other; [done|]. congruence.
Qed.

Lemma unresolved_rebound s s' key :
  rebound s s' →
  unresolved (text_generation.base_model s) key →
  unresolved (text_generation.base_model s') key.
Proof.
  intros [|m] [Hhead Hbad]; [done|]. split; [done|]. simpl.
  rewrite get_submodule_with_delta; [done| |done].
  intros ->. by rewrite get_submodule_root in Hbad.
Qed.

Lemma free_delta_rebound s s' : rebound s s' → free_delta s → free_delta s'.
Proof. by intros [|m]. Qed.

(** Under [free_delta] the inner loop raises nothing but [AttributeError]. *)
Lemma bind_modules_raises l s e s' :
  free_delta s → for_each l bind_module s = (Raise e, s') →
  ∃ item, e = AttributeError item.
Proof.
  revert s. induction l as [|[key module] rest IH]; intros s Hfree;
    cbn [for_each]; [done|].
  unfold and_then at 1. rewrite bind_module_step.
  destruct (text_generation._get_submodules _ key) as [t|e0] eqn:E.
  - rewrite decide_False by done. apply IH. by apply (free_delta_rebound s); [constructor|].
  - intros [= <- <-]. by eapply _get_submodules_raises.
Qed.

(** The inner loop fails when it meets an unresolved name. *)
Lemma bind_modules_unresolved l s key module :
  free_delta s → (key, module) ∈ l →
  unresolved (text_generation.base_model s) key →
  ∃ item s', for_each l bind_module s = (Raise (AttributeError item), s').
Proof.
  revert s. induction l as [|[k m] rest IH]; intros s Hfree Hin Hbad.
  { by apply elem_of_nil in Hin. }
  cbn [for_each]. unfold and_then at 1. rewrite bind_module_step.
  destruct (text_generation._get_submodules _ k) as [t|e0] eqn:E.
  - rewrite decide_False by done.
    apply elem_of_cons in Hin as [[= <- <-]|Hin].
    + destruct Hbad as [_ Hbad].
      destruct (get_submodule (text_generation.base_model s) key) as [|e1] eqn:Ek;
        [done|].
      apply _get_submodules_unresolved in Ek as [e' Ek]. congruence.
    + apply IH; [|done|].
      * by apply (free_delta_rebound s); [constructor|].
      * by apply (unresolved_rebound s); [constructor|].
  - destruct (_get_submodules_raises _ _ _ E) as [item ->]. eauto.
Qed.

(** The outer loop fails with [AttributeError] when every requested delta is
    resident and one of their checkpoints has an unresolved name. *)
Lemma bind_deltas_unresolved deltas s delta entry key module :
  free_delta s →
  (∀ d, d ∈ deltas → is_Some (text_generation.model_pool s !! d)) →
  delta ∈ deltas →
  text_generation.model_pool s !! delta = Some entry →
  (key, module) ∈ named_modules "" (text_generation.model entry) →
  unresolved (text_generation.base_model s) key →
  ∃ item s', for_each deltas bind_delta s = (Raise (AttributeError item), s').
Proof.
  revert s. induction deltas as [|d rest IH];
    intros s Hfree Hres Hin Hentry Hkey Hbad.
  { by apply elem_of_nil in Hin. }
  cbn [for_each]. unfold and_then at 1.
  destruct (bind_delta d s) as [[[]|e] s1] eqn:E.
  - pose proof (bind_delta_rebound _ _ _ _ E) as Hreb.
    destruct (rebound_pool _ _ Hreb) as (Hpool & _).
    apply elem_of_cons in Hin as [->|Hin].
    + unfold bind_delta, and_then, text_generation.pool_getitem in E.
      rewrite Hentry in E.
      destruct (bind_modules_unresolved _ s key module Hfree Hkey Hbad)
        as (item & s' & Hfail). congruence.
    + apply IH; try done.
      * by apply (free_delta_rebound s).
      * intros d' Hd'. rewrite Hpool. apply Hres. by apply elem_of_cons; right.
      * by rewrite Hpool.
      * by apply (unresolved_rebound s).
  - unfold bind_delta, and_then, text_generation.pool_getitem in E.
    destruct (Hres d) as [entry_d Hd]; [by apply elem_of_cons; left|].
    rewrite Hd in E. apply bind_modules_raises in E as [item ->]; [|done]. eauto.
Qed.

(** After its first step on a resident delta the outer loop has bound
    [delta], whatever happens next. *)
Lemma bind_deltas_binds d rest s r s' :
  free_delta s → is_Some (text_generation.model_pool s !! d) →
  for_each (d :: rest) bind_delta s = (r, s') →
  ∃ m, s' = text_generation.set_base_model
              (with_delta (text_generation.base_model s) m) s.
Proof.
  intros Hfree [entry Hd] Hrun.
  assert (∃ m s2,
    rebound (text_generation.set_base_model
               (with_delta (text_generation.base_model s) m) s) s2
    ∧ rebound s2 s') as (m & s2 & Hr1 & Hr2).
  { cbn [for_each] in Hrun. unfold and_then at 1 in Hrun.
    destruct (bind_delta d s) as [rd sd] eqn:E.
    exists (text_generation.model entry), sd. split.
    - unfold bind_delta, and_then, text_generation.pool_getitem in E.
      rewrite Hd in E.
      destruct (named_modules_head "" (text_generation.model entry)) as [tl Hnm].
      rewrite Hnm in E. cbn [for_each] in E. unfold and_then at 1 in E.
      rewrite bind_module_step in E.
      assert (text_generation._get_submodules (text_generation.base_model s) ""
              = Ok (text_generation.base_model s, text_generation.base_model s, ""))
        as Hroot by done.
      rewrite Hroot, decide_False in E by done.
      eapply for_each_rebound; [|exact E]. intros. by eapply bind_module_rebound.
    - destruct rd as [[]|e].
      + eapply for_each_rebound; [|exact Hrun]. intros. by eapply bind_delta_rebound.
      + injection Hrun as <- <-. constructor. }
  pose proof (rebound_trans _ _ _ Hr1 Hr2) as Hreb.
  inversion Hreb as [Heq|m' Heq]; simpl.
  - by exists m.
  - exists m'. by rewrite with_delta_twice.
Qed.

(** What the inner loop leaves behind, whatever its outcome: the pipeline as
    it was, or [delta] bound to one of the modules of the list. *)
Lemma bind_modules_trace l s r s' :
  for_each l bind_module s = (r, s') →
  s' = s
  ∨ ∃ key module, (key, module) ∈ l
      ∧ s' = text_generation.set_base_model
               (with_delta (text_generation.base_model s) module) s.
Proof.
  revert s. induction l as [|[key module] rest IH]; intros s; cbn [for_each].
  { intros [= <- <-]. by left. }
  unfold and_then at 1. rewrite bind_module_step.
  destruct (text_generation._get_submodules _ key) as [t|e].
  2:{ intros [= <- <-]. by left. }
  case_decide; [intros [= <- <-]; by left|].
  intros Hrest. right. destruct (IH _ Hrest) as [->|(k & m & Hin & ->)].
  - exists key, module. split; [by apply elem_of_cons; left|done].
  - exists k, m. split; [by apply elem_of_cons; right|].
    simpl. by rewrite with_delta_twice.
Qed.

Lemma requested_module_cons self d deltas m :
  requests.requested_module self deltas m →
  requests.requested_module self (d :: deltas) m.
Proof.
  intros (delta & entry & key & Hin & Hpool & Hkey).
  exists delta, entry, key. split; [by apply elem_of_cons; right|done].
Qed.

(** The same for the outer loop: the module left bound, if any, was
    enumerated from the checkpoint of a requested delta. *)
Lemma bind_deltas_trace deltas s r s' :
  for_each deltas bind_delta s = (r, s') →
  s' = s
  ∨ ∃ m, requests.requested_module s deltas m
      ∧ s' = text_generation.set_base_model
               (with_delta (text_generation.base_model s) m) s.
Proof.
  revert s. induction deltas as [|d rest IH]; intros s; cbn [for_each].
  { intros [= <- <-]. by left. }
  unfold and_then at 1. destruct (bind_delta d s) as [rd sd] eqn:E.
  assert (sd = s
          ∨ ∃ m, requests.requested_module s (d :: rest) m
              ∧ sd = text_generation.set_base_model
                       (with_delta (text_generation.base_model s) m) s) as Hsd.
  { unfold bind_delta, and_then, text_generation.pool_getitem in E.
    destruct (text_generation.model_pool s !! d) as [entry|] eqn:Hd.
    - destruct (bind_modules_trace _ _ _ _ E) as [->|(k & m & Hin & ->)]; [by left|].
      right. exists m. split; [|done]. exists d, entry, k.
      split; [by apply elem_of_cons; left|done].
    - injection E as <- <-. by left. }
  destruct rd as [[]|e]; [|by intros [= <- <-]].
  intros Hrest. destruct (IH _ Hrest) as [->|(m2 & Hreq & ->)]; [done|].
  right. exists m2. destruct Hsd as [->|(m1 & _ & ->)].
  - split; [by apply requested_module_cons|done].
  - split; [|simpl; by rewrite with_delta_twice].
    apply requested_module_cons. exact Hreq.
Qed.

(** After its first step on a resident delta the outer loop has bound
    [delta] to a module of a requested checkpoint, whatever happens next. *)
Lemma bind_deltas_binds_requested d rest s r s' entry :
  free_delta s → text_generation.model_pool s !! d = Some entry →
  for_each (d :: rest) bind_delta s = (r, s') →
  ∃ m, requests.requested_module s (d :: rest) m
    ∧ s' = text_generation.set_base_model
             (with_delta (text_generation.base_model s) m) s.
Proof.
  intros Hfree Hd Hrun. cbn [for_each] in Hrun. unfold and_then at 1 in Hrun.
  destruct (bind_delta d s) as [rd sd] eqn:E.
  assert (∃ m, requests.requested_module s (d :: rest) m
            ∧ sd = text_generation.set_base_model
                     (with_delta (text_generation.base_model s) m) s)
    as (m0 & Hreq0 & ->).
  { unfold bind_delta, and_then, text_generation.pool_getitem in E.
    rewrite Hd in E.
    destruct (named_modules_head "" (text_generation.model entry)) as [tl Hnm].
    rewrite Hnm in E. cbn [for_each] in E. unfold and_then at 1 in E.
    rewrite bind_module_step in E.
    assert (text_generation._get_submodules (text_generation.base_model s) ""
            = Ok (text_generation.base_model s, text_generation.base_model s, ""))
      as Hroot by done.
    rewrite Hroot, decide_False in E by done.
    destruct (bind_modules_trace _ _ _ _ E) as [->|(k & m & Hin & ->)].
    - exists (text_generation.model entry). split; [|done].
      exists d, entry, "". rewrite Hnm.
      split; [by apply elem_of_cons; left|]. split; [done|by apply elem_of_cons; left].
    - exists m. split; [|simpl; by rewrite with_delta_twice].
      exists d, entry, k. rewrite Hnm.
      split; [by apply elem_of_cons; left|]. split; [done|by apply elem_of_cons; right]. }
  destruct rd as [[]|e]; [|injection Hrun as <- <-; eauto].
  destruct (bind_deltas_trace _ _ _ _ Hrun) as [->|(m2 & Hreq2 & ->)]; [eauto|].
  exists m2. split; [|simpl; by rewrite with_delta_twice].
  apply requested_module_cons.
  destruct Hreq2 as (delta & entry2 & key & Hin & Hpool & Hkey).
  by exists delta, entry2, key.
Qed.

(** C6, as the code has it.  When the prompts tokenize, the base model has
    no parameter called [delta], every requested delta is resident, and
    some requested checkpoint has a submodule name that does not resolve in
    the base model (and does not start with the component [delta]),
    [generate] fails with [AttributeError] before any forward pass, and it
    leaves the base model's attribute [delta] bound to a module enumerated
    from a requested checkpoint, everything else being as before: the base
    model differs from its state before the call unless [delta] already
    held that module. *)
Theorem generate_unresolved_name ext queries self raw prompt delta entry key module :
  text_generation.tokenizer ext (queries.*1) = Ok raw →
  free_delta self →
  (∀ d, d ∈ queries.*2 → is_Some (text_generation.model_pool self !! d)) →
  (prompt, delta) ∈ queries →
  text_generation.model_pool self !! delta = Some entry →
  (key, module) ∈ named_modules "" (text_generation.model entry) →
  unresolved (text_generation.base_model self) key →
  ∃ item m,
    text_generation.generate ext queries self
    = (Raise (AttributeError item),
       text_generation.set_base_model
         (with_delta (text_generation.base_model self) m) self)
    ∧ requests.requested_module self (queries.*2) m
    ∧ dict_get "delta" (_modules (with_delta (text_generation.base_model self) m))
      = Some m
    ∧ (with_delta (text_generation.base_model self) m
       = text_generation.base_model self
       ↔ dict_get "delta" (_modules (text_generation.base_model self)) = Some m).
Proof.
  intros Htok Hfree Hres Hin Hentry Hkey Hbad.
  assert (delta ∈ queries.*2) as Hdelta.
  { apply list_elem_of_fmap. by exists (prompt, delta). }
  destruct (bind_deltas_unresolved _ _ _ _ _ _ Hfree Hres Hdelta Hentry Hkey Hbad)
    as (item & s' & Hloop).
  destruct (queries.*2) as [|d rest] eqn:Eq; [by apply elem_of_nil in Hdelta|].
  destruct (Hres d ltac:(by apply elem_of_cons; left)) as [entry_d Hd].
  destruct (bind_deltas_binds_requested _ _ _ _ _ _ Hfree Hd Hloop) as (m & Hreq & ->).
  exists item, m. split; [|split; [done|split; [apply with_delta_delta|]]].
  - rewrite generate_unfold. unfold and_then at 1. unfold gets at 1.
    unfold and_then at 1. unfold lift at 1. rewrite prepare_batch_eq, Htok.
    simpl bind. cbv beta iota. unfold and_then at 1. by rewrite Eq, Hloop.
  - apply with_delta_same_iff.
Qed.

Lemma generate_unresolved_name_witness :
  ∃ item m,
    text_generation.generate examples.collaborators [("hi", "foreign")]
      (examples.loaded ["foreign"])
    = (Raise (AttributeError item),
       text_generation.set_base_model
         (with_delta (text_generation.base_model (examples.loaded ["foreign"])) m)
         (examples.loaded ["foreign"]))
    ∧ requests.requested_module (examples.loaded ["foreign"]) ["foreign"] m.
Proof.
  destruct (generate_unresolved_name examples.collaborators [("hi", "foreign")]
           (examples.loaded ["foreign"])
           {| text_generation.input_ids := {| data := [[2%Z]]; device := cpu |};
              text_generation.attention_mask := {| data := [[1%Z]]; device := cpu |} |}
           "hi" "foreign"
           {| text_generation.ident := 0; text_generation.model := examples.foreign_delta |}
           "head" (Mod [("qweight", examples.weights 9)] []))
    as (item & m & Hrun & Hreq & _).
  - reflexivity.
  - unfold free_delta. simpl. apply not_elem_of_nil.
  - intros d Hd. apply list_elem_of_singleton in Hd as ->. by eexists.
  - apply list_elem_of_singleton. reflexivity.
  - reflexivity.
  - simpl. apply elem_of_cons. right. apply list_elem_of_singleton. reflexivity.
  - split; [simpl; discriminate|reflexivity].
  - exists item, m. split; [exact Hrun|exact Hreq].
Defined.

(** C6: binding a checkpoint whose only submodule name ([head]) does not
    resolve in the base model fails with [AttributeError], and the base
    model is left with an attribute [delta] it did not have. *)
Lemma failed_bind_modifies_base :
  is_ok (text_generation._get_submodules examples.base "head") = false
  ∧ text_generation.base_model (examples.loaded ["foreign"]) = examples.base
  ∧ (text_generation.generate examples.collaborators [("hi", "foreign")]
       (examples.loaded ["foreign"])).1
    = Raise (AttributeError "head")
  ∧ text_generation.base_model
      (text_generation.generate examples.collaborators [("hi", "foreign")]
         (examples.loaded ["foreign"])).2
    = Mod [] [("layer", Mod [("weight", examples.weights 1)] []);
              ("delta", examples.foreign_delta)]
  ∧ text_generation.base_model
      (text_generation.generate examples.collaborators [("hi", "foreign")]
         (examples.loaded ["foreign"])).2
    ≠ examples.base.
Proof. repeat split; try reflexivity. vm_compute. discriminate. Qed.

(* ===================================================================== *)
(** ** Names that resolve: when [generate] succeeds *)
(* ===================================================================== *)









(* ===================================================================== *)
(** ** Alignment of the output with the requests *)
(* ===================================================================== *)
Section alignment.
Variable ext : text_generation.Collaborators.

(** The contracts of the two collaborators that make rows meaningful: the
    tokenizer gives one row per prompt, in order; the base model's
    [generate] continues every row of its input, in order. *)
Variable encode_row : list string → string → list Z.
Variable continue_row : nn_Module → text_generation.BatchEncoding → list Z → list Z.
Hypothesis tokenizer_rows : ∀ prompts raw,
  text_generation.tokenizer ext prompts = Ok raw →
  data (text_generation.input_ids raw) = encode_row prompts <$> prompts.
Hypothesis generate_rows : ∀ m batch out,
  text_generation.base_generate ext m batch = Ok out →
  data out = continue_row m batch <$> data (text_generation.input_ids batch).


End alignment.



(* ===================================================================== *)
(** ** More on the GPU probe: initialisation, failures, repeated calls *)
(* ===================================================================== *)

(** One call of [initialize], case by case. *)
Lemma initialize_step nvml (p : utils.Process) :
  utils.initialize nvml p
  = if utils.nvml_is_initialized p then (Ok tt, p)
    else match utils.nvmlInit nvml with
         | Ok _ =>
             (Ok tt,
              utils.set_initialized true
                (utils.set_environ "CUDA_DEVICE_ORDER" "PCI_BUS_ID" p))
         | Raise e =>
             (Raise e, utils.set_environ "CUDA_DEVICE_ORDER" "PCI_BUS_ID" p)
         end.
Proof.
  unfold utils.initialize, and_then, gets, modify, lift, ret. simpl.
  destruct (utils.nvml_is_initialized p); simpl; [done|].
  by destruct (utils.nvmlInit nvml) as [[]|].
Qed.

(** [initialize] runs the driver's initialisation at most once: after a
    call that succeeded, the flag is set, [CUDA_DEVICE_ORDER] is
    [PCI_BUS_ID] unless the flag was set already, and any further call, with
    whatever driver, returns at once and leaves the process as it is. *)
Theorem initialize_once nvml nvml' (p p1 : utils.Process) :
  utils.initialize nvml p = (Ok tt, p1) →
  utils.nvml_is_initialized p1 = true
  ∧ (utils.nvml_is_initialized p = false →
       utils.environ p1 !! "CUDA_DEVICE_ORDER" = Some "PCI_BUS_ID")
  ∧ utils.initialize nvml' p1 = (Ok tt, p1).
Proof.
  rewrite initialize_step. destruct (utils.nvml_is_initialized p) eqn:Hflag.
  - intros [= <-]. rewrite initialize_step, Hflag. done.
  - destruct (utils.nvmlInit nvml) as [[]|e]; [|done]. intros [= <-].
    split; [done|]. split.
    + intros _. simpl. apply lookup_insert_eq.
    + by rewrite initialize_step.
Qed.

Lemma initialize_once_witness :
  utils.initialize {| utils.nvmlInit := Raise (ExternalError "driver not loaded");
                      utils.nvmlDeviceGetCount := Raise (ExternalError "driver not loaded") |}
    (utils.initialize examples.four_gpus (examples.process_with None)).2
  = (Ok tt, (utils.initialize examples.four_gpus (examples.process_with None)).2).
Proof.
  refine (proj2 (proj2 (initialize_once examples.four_gpus _
                          (examples.process_with None) _ _))).
  reflexivity.
Defined.

(** When the driver cannot initialise, [initialize] raises the driver's
    error with the flag still unset, so that a later call tries again; but
    [CUDA_DEVICE_ORDER] has already been written, and no other variable
    has changed. *)
Theorem initialize_failure_keeps_flag_unset nvml (p : utils.Process) e :
  utils.nvml_is_initialized p = false →
  utils.nvmlInit nvml = Raise e →
  (utils.initialize nvml p).1 = Raise e
  ∧ utils.nvml_is_initialized (utils.initialize nvml p).2 = false
  ∧ utils.environ (utils.initialize nvml p).2 !! "CUDA_DEVICE_ORDER"
    = Some "PCI_BUS_ID"
  ∧ (∀ k, k ≠ "CUDA_DEVICE_ORDER" →
       utils.environ (utils.initialize nvml p).2 !! k = utils.environ p !! k)
  ∧ (∀ nvml',
       utils.nvmlInit nvml' = Ok tt →
       (utils.initialize nvml' (utils.initialize nvml p).2).1 = Ok tt
       ∧ utils.nvml_is_initialized
           (utils.initialize nvml' (utils.initialize nvml p).2).2 = true).
Proof.
  intros Hflag Hinit. rewrite initialize_step, Hflag, Hinit. simpl.
  split; [done|]. split; [done|]. split; [apply lookup_insert_eq|].
  split; [intros k Hne; by apply lookup_insert_ne|].
  intros nvml' Hinit'. rewrite initialize_step. simpl. rewrite Hflag, Hinit'. done.
Qed.

Lemma initialize_failure_keeps_flag_unset_witness :
  utils.nvml_is_initialized
    (utils.initialize
       {| utils.nvmlInit := Raise (ExternalError "driver not loaded");
          utils.nvmlDeviceGetCount := Ok 0 |}
       (examples.process_with (Some "0,1"))).2 = false
  ∧ utils.environ
      (utils.initialize
         {| utils.nvmlInit := Raise (ExternalError "driver not loaded");
            utils.nvmlDeviceGetCount := Ok 0 |}
         (examples.process_with (Some "0,1"))).2 !! "CUDA_DEVICE_ORDER"
    = Some "PCI_BUS_ID".
Proof.
  destruct (initialize_failure_keeps_flag_unset
              {| utils.nvmlInit := Raise (ExternalError "driver not loaded");
                 utils.nvmlDeviceGetCount := Ok 0 |}
              (examples.process_with (Some "0,1"))
              (ExternalError "driver not loaded") eq_refl eq_refl)
    as (_ & Hflag & Henv & _).
  split; [exact Hflag|exact Henv].
Defined.

(** With [CUDA_VISIBLE_DEVICES] set to any text at all, the probe never
    consults the driver and never fails: it counts the commas, so the
    fields need not be device numbers, and it reports at least one device.
    [get_gpu_count] is then one more than the number of commas. *)
Theorem probe_counts_commas nvml (p : utils.Process) (gpus : string) :
  utils.environ p !! "CUDA_VISIBLE_DEVICES" = Some gpus →
  utils.get_available_gpus nvml p = (Ok (seq 0 (S (count_char "," gpus))), p)
  ∧ utils.get_gpu_count nvml p = (Ok (S (count_char "," gpus)), p)
  ∧ (∀ nvml', utils.get_available_gpus nvml' p = utils.get_available_gpus nvml p).
Proof.
  intros Hset. rewrite (get_available_gpus_set nvml _ _ Hset).
  split; [done|]. split.
  - unfold utils.get_gpu_count, and_then, ret.
    rewrite (get_available_gpus_set nvml _ _ Hset). by rewrite length_seq.
  - intros nvml'. by rewrite (get_available_gpus_set nvml' _ _ Hset).
Qed.

Lemma probe_counts_commas_witness :
  utils.get_gpu_count
    {| utils.nvmlInit := Raise (ExternalError "driver not loaded");
       utils.nvmlDeviceGetCount := Raise (ExternalError "driver not loaded") |}
    (examples.process_with (Some "GPU-a,,7"))
  = (Ok 3, examples.process_with (Some "GPU-a,,7")).
Proof.
  refine (proj1 (proj2 (probe_counts_commas _ (examples.process_with (Some "GPU-a,,7"))
                          "GPU-a,,7" _))).
  reflexivity.
Defined.

Lemma get_available_gpus_unset_run nvml (p : utils.Process) :
  utils.environ p !! "CUDA_VISIBLE_DEVICES" = None →
  utils.get_available_gpus nvml p
  = match utils.initialize nvml p with
    | (Ok _, p') =>
        (match utils.nvmlDeviceGetCount nvml with
         | Ok k => Ok (seq 0 k)
         | Raise e => Raise e
         end, p')
    | (Raise e, p') => (Raise e, p')
    end.
Proof.
  intros Hunset. unfold utils.get_available_gpus, utils._get_gpu_count.
  unfold and_then at 1. unfold gets at 1. rewrite Hunset.
  unfold and_then, lift, ret.
  destruct (utils.initialize nvml p) as [[[]|e] p']; [|done].
  by destruct (utils.nvmlDeviceGetCount nvml).
Qed.

(** With [CUDA_VISIBLE_DEVICES] unset the probe has no fallback: if the
    driver cannot initialise, or cannot report its device count, the
    driver's error is what [get_available_gpus] and [get_gpu_count] raise. *)
Theorem probe_unset_driver_failure nvml (p : utils.Process) e :
  utils.environ p !! "CUDA_VISIBLE_DEVICES" = None →
  (utils.nvml_is_initialized p = false ∧ utils.nvmlInit nvml = Raise e)
  ∨ ((utils.nvml_is_initialized p = true ∨ utils.nvmlInit nvml = Ok tt)
     ∧ utils.nvmlDeviceGetCount nvml = Raise e) →
  (utils.get_available_gpus nvml p).1 = Raise e
  ∧ (utils.get_gpu_count nvml p).1 = Raise e.
Proof.
  intros Hunset Hfail.
  assert ((utils.get_available_gpus nvml p).1 = Raise e) as Hprobe.
  { rewrite (get_available_gpus_unset _ _ Hunset).
    destruct Hfail as [[Hflag Hinit]|[[Hflag|Hinit] Hcount]].
    - by rewrite Hflag, Hinit.
    - by rewrite Hflag, Hcount.
    - rewrite Hinit, Hcount. by destruct (utils.nvml_is_initialized p). }
  split; [done|]. unfold utils.get_gpu_count, and_then.
  destruct (utils.get_available_gpus nvml p) as [[l|e'] p']; simpl in *; congruence.
Qed.

Lemma probe_unset_driver_failure_witness :
  (utils.get_gpu_count
     {| utils.nvmlInit := Ok tt;
        utils.nvmlDeviceGetCount := Raise (ExternalError "gpu is lost") |}
     (examples.process_with None)).1
  = Raise (ExternalError "gpu is lost").
Proof.
  refine (proj2 (probe_unset_driver_failure _ (examples.process_with None) _ _ _)).
  - reflexivity.
  - right. split; [by right|reflexivity].
Defined.

(** The probe is stable: when [get_available_gpus] has returned a list,
    calling it again returns the same list and leaves the process as the
    first call left it (the driver is not initialised a second time). *)
Theorem probe_is_stable nvml (p p1 : utils.Process) (gpus : list nat) :
  utils.get_available_gpus nvml p = (Ok gpus, p1) →
  utils.get_available_gpus nvml p1 = (Ok gpus, p1)
  ∧ utils.get_gpu_count nvml p1 = (Ok (length gpus), p1).
Proof.
  intros Hrun.
  assert (utils.get_available_gpus nvml p1 = (Ok gpus, p1)) as Hagain.
  { destruct (utils.environ p !! "CUDA_VISIBLE_DEVICES") as [v|] eqn:Hv.
    - rewrite (get_available_gpus_set _ _ _ Hv) in Hrun.
      injection Hrun as <- <-. by rewrite (get_available_gpus_set _ _ _ Hv).
    - rewrite (get_available_gpus_unset_run _ _ Hv) in Hrun.
      destruct (utils.initialize nvml p) as [[[]|e] p'] eqn:Hinit; [|done].
      destruct (utils.nvmlDeviceGetCount nvml) as [k|e] eqn:Hcount; [|done].
      injection Hrun as <- <-.
      destruct (initialize_once _ nvml _ _ Hinit) as (_ & _ & Hnoop).
      assert (utils.environ p' !! "CUDA_VISIBLE_DEVICES" = None) as Hv'.
      { rewrite initialize_step in Hinit.
        destruct (utils.nvml_is_initialized p); [by injection Hinit as <-|].
        destruct (utils.nvmlInit nvml) as [[]|]; [|done]. injection Hinit as <-.
        simpl. by rewrite lookup_insert_ne. }
      by rewrite (get_available_gpus_unset_run _ _ Hv'), Hnoop, Hcount. }
  split; [done|]. unfold utils.get_gpu_count, and_then, ret. by rewrite Hagain.
Qed.

Lemma probe_is_stable_witness :
  utils.get_available_gpus examples.four_gpus
    (utils.get_available_gpus examples.four_gpus (examples.process_with None)).2
  = (Ok [0; 1; 2; 3],
     (utils.get_available_gpus examples.four_gpus (examples.process_with None)).2).
Proof.
  refine (proj1 (probe_is_stable examples.four_gpus (examples.process_with None)
                   _ [0; 1; 2; 3] _)).
  reflexivity.
Defined.

(** Whatever its outcome, the probe writes no environment variable other
    than [CUDA_DEVICE_ORDER] (so [CUDA_VISIBLE_DEVICES] is never altered),
    and a process whose driver is already initialised is left exactly as it
    was. *)
Theorem probe_preserves_environment nvml (p : utils.Process) :
  (∀ k, k ≠ "CUDA_DEVICE_ORDER" →
     utils.environ (utils.get_available_gpus nvml p).2 !! k = utils.environ p !! k)
  ∧ (utils.nvml_is_initialized p = true → (utils.get_available_gpus nvml p).2 = p)
  ∧ (utils.get_gpu_count nvml p).2 = (utils.get_available_gpus nvml p).2.
Proof.
  assert (∀ k, k ≠ "CUDA_DEVICE_ORDER" →
            utils.environ (utils.initialize nvml p).2 !! k = utils.environ p !! k)
    as Hinit_env.
  { intros k Hne. rewrite initialize_step.
    destruct (utils.nvml_is_initialized p); [done|].
    destruct (utils.nvmlInit nvml) as [[]|]; simpl; by rewrite lookup_insert_ne. }
  split; [|split].
  - intros k Hne.
    destruct (utils.environ p !! "CUDA_VISIBLE_DEVICES") as [v|] eqn:Hv.
    + by rewrite (get_available_gpus_set _ _ _ Hv).
    + rewrite (get_available_gpus_unset_run _ _ Hv).
      specialize (Hinit_env k Hne).
      by destruct (utils.initialize nvml p) as [[[]|e] p'].
  - intros Hflag.
    destruct (utils.environ p !! "CUDA_VISIBLE_DEVICES") as [v|] eqn:Hv.
    + by rewrite (get_available_gpus_set _ _ _ Hv).
    + by rewrite (get_available_gpus_unset_run _ _ Hv), initialize_step, Hflag.
  - unfold utils.get_gpu_count, and_then, ret.
    by destruct (utils.get_available_gpus nvml p) as [[l|e] p'].
Qed.

(* ===================================================================== *)
(** ** Module trees: enumeration and resolution *)
(* ===================================================================== *)

(** Induction on a module with the hypothesis for every registered child. *)
Lemma nn_Module_children_ind (P : nn_Module → Prop) :
  (∀ ps ms, Forall (λ nc, P nc.2) ms → P (Mod ps ms)) → ∀ m, P m.
Proof.
  intros Hstep.
  refine (fix IH (m : nn_Module) : P m :=
            match m with
            | Mod ps ms =>
                Hstep ps ms
                  ((fix go (l : list (string * nn_Module))
                      : Forall (λ nc, P nc.2) l :=
                      match l with
                      | [] => @List.Forall_nil _ (λ nc, P nc.2)
                      | (n, c) :: rest =>
                          @List.Forall_cons _ (λ nc, P nc.2) (n, c) rest (IH c) (go rest)
                      end) ms)
            end).
Qed.

Lemma named_modules_unfold prefix ps ms :
  named_modules prefix (Mod ps ms)
  = (prefix, Mod ps ms)
    :: mbind (M := list) (λ nc, named_modules (qualify prefix nc.1) nc.2) ms.
Proof.
  simpl. f_equal. induction ms as [|[n c] rest IH]; [done|].
  simpl. by rewrite IH.
Qed.

Lemma named_paths_unfold ps ms :
  tree.named_paths (Mod ps ms)
  = ([], Mod ps ms)
    :: mbind (M := list)
         (λ nc, (λ q, (nc.1 :: q.1, q.2)) <$> tree.named_paths nc.2) ms.
Proof.
  simpl. f_equal. induction ms as [|[n c] rest IH]; [done|].
  simpl. by rewrite IH.
Qed.

Lemma well_formed_unfold ps ms :
  tree.well_formed (Mod ps ms)
  ↔ NoDup ms.*1 ∧ Forall tree.atom ms.*1
    ∧ Forall (λ nc, tree.well_formed nc.2) ms.
Proof.
  simpl. do 2 (apply and_iff_compat_l).
  induction ms as [|[n c] rest IH]; simpl.
  - split; [constructor|done].
  - rewrite Forall_cons. simpl. by rewrite IH.
Qed.

(** [named_modules] names each submodule by qualifying the prefix with the
    names on the way to it, one after the other. *)
Lemma named_modules_paths m : ∀ prefix,
  named_modules prefix m
  = (λ q, (foldl qualify prefix q.1, q.2)) <$> tree.named_paths m.
Proof.
  induction m as [ps ms IH] using nn_Module_children_ind. intros prefix.
  rewrite named_modules_unfold, named_paths_unfold. rewrite fmap_cons. simpl.
  f_equal. induction IH as [|[n c] rest Hc _ IHrest]; [done|].
  rewrite !bind_cons, fmap_app, IHrest. f_equal.
  simpl in *. rewrite Hc, <- list_fmap_compose. done.
Qed.

Lemma dict_get_elem {V} (d : list (string * V)) k v :
  NoDup d.*1 → (k, v) ∈ d → dict_get k d = Some v.
Proof.
  induction d as [|[k' v'] rest IH]; intros Hnd Hin.
  { by apply elem_of_nil in Hin. }
  simpl in *. apply NoDup_cons in Hnd as [Hfresh Hnd].
  apply elem_of_cons in Hin as [[= -> ->]|Hin].
  - by rewrite decide_True.
  - rewrite decide_False; [by apply IH|].
    intros ->. apply Hfresh. apply list_elem_of_fmap. by exists (k', v).
Qed.

Lemma append_assoc (a b c : string) : (a +:+ b) +:+ c = a +:+ (b +:+ c).
Proof. induction a as [|x a IH]; [done|]. exact (f_equal (String x) IH). Qed.

Lemma append_nonempty (a b : string) : a ≠ "" → a +:+ b ≠ "".
Proof. by destruct a. Qed.

Lemma append_sep_nonempty (a : string) c b : a +:+ String c b ≠ "".
Proof. by destruct a. Qed.

Lemma join_snoc sep l x :
  l ≠ [] → join sep (l ++ [x]) = join sep l +:+ sep +:+ x.
Proof.
  induction l as [|a [|b rest] IH]; intros Hne; [done|done|].
  change (join sep ((a :: b :: rest) ++ [x]))
    with (a +:+ sep +:+ join sep ((b :: rest) ++ [x])).
  rewrite IH by done.
  change (join sep (a :: b :: rest)) with (a +:+ sep +:+ join sep (b :: rest)).
  by rewrite !append_assoc.
Qed.

(** A join is empty only for no field or for one empty field. *)
Lemma join_empty c l : join (String c "") l = "" → l = [] ∨ l = [""].
Proof.
  destruct l as [|a [|b rest]]; [by left| |].
  - simpl. intros ->. by right.
  - change (join (String c "") (a :: b :: rest))
      with (a +:+ String c (join (String c "") (b :: rest))).
    intros Habs. by apply append_sep_nonempty in Habs.
Qed.

Lemma split_fields_free sep s : Forall (free_of sep) (split sep s).
Proof.
  induction s as [|c rest IH]; simpl; [by repeat constructor|].
  case_decide as Hc.
  - by constructor.
  - destruct (split sep rest) as [|f fs] eqn:E;
      [by destruct (split_nonempty sep rest)|].
    apply Forall_cons in IH as [Hf Hfs]. constructor; [|done].
    unfold free_of in *. simpl. by rewrite decide_False.
Qed.

(** The fields of a key are its dotted prefix's fields followed by its last
    component. *)
Lemma split_snoc key :
  split "." key = but_last (split "." key) ++ [as_stated.last_component key].
Proof.
  pose proof (item_last_split key) as Hlast. unfold item_last in Hlast.
  destruct (last (split "." key)) as [x|] eqn:El; [|done].
  injection Hlast as <-. apply last_Some in El as [l' El].
  rewrite El at 1. f_equal. rewrite El. unfold but_last.
  rewrite length_app. simpl. apply symmetry, take_app_length'. lia.
Qed.

Lemma descend_app m l1 l2 :
  descend m (l1 ++ l2) = (let? x := descend m l1 in descend x l2).
Proof.
  revert m. induction l1 as [|a l1 IH]; intros m; simpl; [done|].
  destruct (getattr_module m a) as [child|e]; simpl; [apply IH|done].
Qed.

Lemma descend_one m name : descend m [name] = getattr_module m name.
Proof. simpl. by destruct (getattr_module m name). Qed.

(** Looking up a joined list of dot-free fields walks the list; the empty
    text gives the module itself. *)
Lemma get_submodule_join m l :
  Forall (free_of ".") l →
  get_submodule m (join "." l)
  = if decide (join "." l = "") then Ok m else descend m l.
Proof.
  intros Hfree. unfold get_submodule. case_decide as Hj; [done|].
  rewrite split_join; [done| |done]. by intros ->.
Qed.

Lemma foldl_qualify_join path :
  Forall tree.atom path → foldl qualify "" path = join "." path.
Proof.
  induction path as [|x l IH] using rev_ind; [done|]. intros Hatoms.
  apply Forall_app in Hatoms as [Hl _]. rewrite foldl_app. simpl.
  rewrite (IH Hl). unfold qualify. destruct l as [|a l'].
  - done.
  - rewrite decide_False.
    + by rewrite join_snoc.
    + apply Forall_cons in Hl as [[Ha _] _].
      destruct l' as [|b l'']; [done|].
      change (join "." (a :: b :: l'')) with (a +:+ "." +:+ join "." (b :: l'')).
      by apply append_nonempty.
Qed.

(** If a key resolves, so does its dotted prefix. *)
Lemma dotted_prefix_resolves m key t :
  get_submodule m key = Ok t →
  ∃ parent, get_submodule m (as_stated.dotted_prefix key) = Ok parent.
Proof.
  intros Hkey. rewrite <- join_but_last_split. rewrite get_submodule_join.
  2:{ apply Forall_take, split_fields_free. }
  case_decide as Hj; [eauto|].
  unfold get_submodule in Hkey. case_decide as Hne.
  { subst key. by destruct Hj. }
  rewrite split_snoc, descend_app in Hkey.
  destruct (descend m (but_last (split "." key))) as [parent|e]; [eauto|done].
Qed.

(** The helper succeeds exactly when the key itself resolves, with the
    resolved submodule as its target and the text after the last dot as its
    name; otherwise it raises [AttributeError]. *)
Theorem submodules_helper_resolves_with_key (model : nn_Module) (key : string) :
  (∀ target, get_submodule model key = Ok target →
     ∃ parent,
       utils.get_submodules model key
       = Ok (parent, target, as_stated.last_component key)
       ∧ get_submodule model (as_stated.dotted_prefix key) = Ok parent)
  ∧ (∀ e, get_submodule model key = Raise e →
       ∃ item, utils.get_submodules model key = Raise (AttributeError item))
  ∧ (∀ parent target name,
       utils.get_submodules model key = Ok (parent, target, name) →
       get_submodule model key = Ok target).
Proof.
  split; [|split].
  - intros target Hkey. destruct (dotted_prefix_resolves _ _ _ Hkey) as [parent Hp].
    exists parent. split; [|done]. unfold utils.get_submodules.
    rewrite join_but_last_split, item_last_split, Hp, Hkey. done.
  - intros e Hkey.
    destruct (_get_submodules_unresolved _ _ _ Hkey) as [e' He'].
    destruct (_get_submodules_raises _ _ _ He') as [item ->]. eauto.
  - intros parent target name. unfold utils.get_submodules.
    destruct (get_submodule model (join "." _)); simpl; [|done].
    destruct (item_last _); simpl; [|done].
    destruct (get_submodule model key); simpl; [|done]. by intros [= _ -> _].
Qed.

Lemma submodules_helper_resolves_with_key_witness :
  ∃ parent,
    utils.get_submodules examples.base "layer"
    = Ok (parent, Mod [("weight", examples.weights 1)] [],
          as_stated.last_component "layer")
    ∧ get_submodule examples.base (as_stated.dotted_prefix "layer") = Ok parent.
Proof.
  apply (proj1 (submodules_helper_resolves_with_key examples.base "layer")).
  reflexivity.
Defined.

(* ===================================================================== *)
(** ** The helper's triple and the enumeration, for any attribute lookup *)
(* ===================================================================== *)

(** With the lookup of [torch.getattr_module] the generic helper is the
    helper of [utils.py] and of [text_generation.py]. *)
Lemma generic_get_submodules_is_helper model key :
  generic.get_submodules getattr_module model key = utils.get_submodules model key
  ∧ generic.get_submodules getattr_module model key
    = text_generation._get_submodules model key.
Proof. split; reflexivity. Qed.

Section any_lookup.
Variable getattr : nn_Module → string → result nn_Module.

Lemma generic_descend_app m l1 l2 :
  generic.descend getattr m (l1 ++ l2)
  = (let? x := generic.descend getattr m l1 in generic.descend getattr x l2).
Proof.
  revert m. induction l1 as [|a l1 IH]; intros m; simpl; [done|].
  destruct (getattr m a) as [child|e]; simpl; [apply IH|done].
Qed.

Lemma generic_get_submodule_join m l :
  Forall (free_of ".") l →
  generic.get_submodule getattr m (join "." l)
  = if decide (join "." l = "") then Ok m else generic.descend getattr m l.
Proof.
  intros Hfree. unfold generic.get_submodule. case_decide as Hj; [done|].
  rewrite split_join; [done| |done]. by intros ->.
Qed.

Lemma generic_dotted_prefix_resolves m key t :
  generic.get_submodule getattr m key = Ok t →
  ∃ parent,
    generic.get_submodule getattr m (as_stated.dotted_prefix key) = Ok parent.
Proof.
  intros Hkey. rewrite <- join_but_last_split. rewrite generic_get_submodule_join.
  2:{ apply Forall_take, split_fields_free. }
  case_decide as Hj; [eauto|].
  unfold generic.get_submodule in Hkey. case_decide as Hne.
  { subst key. by destruct Hj. }
  rewrite split_snoc, generic_descend_app in Hkey.
  destruct (generic.descend getattr m (but_last (split "." key))) as [parent|e];
    [eauto|done].
Qed.

(** Whatever way attributes are found: for a key that is not empty and does
    not start with a dot, the triple the helper returns is coherent, in
    that looking the returned name up in the returned parent gives the
    returned target; the name is the text after the key's last dot and has
    no dot itself. *)
Theorem helper_target_is_attribute_of_parent
    (model : nn_Module) (key : string) (parent target : nn_Module) (name : string) :
  generic.get_submodules getattr model key = Ok (parent, target, name) →
  head (split "." key) ≠ Some "" →
  getattr parent name = Ok target
  ∧ name = as_stated.last_component key
  ∧ free_of "." name.
Proof.
  intros Hrun Hhead.
  assert (key ≠ "") as Hne by (by intros ->).
  unfold generic.get_submodules in Hrun. rewrite item_last_split in Hrun.
  destruct (generic.get_submodule getattr model (join "." _)) as [p|] eqn:Hp;
    simpl in Hrun; [|done].
  destruct (generic.get_submodule getattr model key) as [t|] eqn:Ht;
    simpl in Hrun; [|done].
  injection Hrun as -> -> <-.
  split; [|split; [done|]].
  - unfold generic.get_submodule in Ht. rewrite decide_False in Ht by done.
    rewrite split_snoc, generic_descend_app in Ht.
    rewrite generic_get_submodule_join in Hp by apply Forall_take, split_fields_free.
    case_decide as Hj.
    + injection Hp as <-. apply join_empty in Hj as [Hl|Hl].
      * rewrite Hl in Ht. simpl in Ht.
        by destruct (getattr model (as_stated.last_component key)).
      * rewrite split_snoc, Hl in Hhead. done.
    + rewrite Hp in Ht. simpl in Ht.
      by destruct (getattr parent (as_stated.last_component key)).
  - pose proof (split_fields_free "." key) as Hall. rewrite split_snoc in Hall.
    apply Forall_app in Hall as [_ Hall]. by apply Forall_cons in Hall as [? _].
Qed.

(** In a well-formed module whose registered submodules are all found by
    attribute lookup, every enumerated path consists of atoms and leads, by
    [get_submodule]'s loop, to the submodule it is listed with. *)
Lemma named_paths_descend m :
  tree.well_formed m → generic.reaches_children getattr m →
  ∀ path sub, (path, sub) ∈ tree.named_paths m →
  Forall tree.atom path ∧ generic.descend getattr m path = Ok sub.
Proof.
  induction m as [ps ms IH] using nn_Module_children_ind.
  intros Hwf Hreach path sub Hin.
  apply well_formed_unfold in Hwf as (Hnd & Hatoms & Hsub).
  pose proof Hin as Hin0.
  rewrite named_paths_unfold in Hin. apply elem_of_cons in Hin as [[= -> ->]|Hin].
  { by split. }
  apply list_elem_of_bind in Hin as ([n c] & Hin & Hnc). simpl in Hin.
  apply list_elem_of_fmap in Hin as ([path' sub'] & [= -> ->] & Hin).
  rewrite Forall_forall in IH. rewrite Forall_forall in Hsub.
  rewrite Forall_forall in Hatoms.
  assert (generic.reaches_children getattr c) as Hreach_c.
  { intros q x Hq. apply (Hreach (n :: q)).
    rewrite named_paths_unfold. apply elem_of_cons. right.
    apply list_elem_of_bind. exists (n, c). split; [|done].
    apply list_elem_of_fmap. by exists (q, x). }
  destruct (IH _ Hnc (Hsub _ Hnc) Hreach_c _ _ Hin) as [Hpath Hdesc]. simpl in *.
  split.
  - constructor; [|done]. apply Hatoms. apply list_elem_of_fmap. by exists (n, c).
  - rewrite (Hreach [] (Mod ps ms) ltac:(rewrite named_paths_unfold; by apply elem_of_cons; left)
               n c (dict_get_elem _ _ _ Hnd Hnc)).
    done.
Qed.

(** Enumeration and resolution agree: in a module whose submodule names at
    every level are distinct atoms and are all found by attribute lookup,
    every name [named_modules] lists resolves, by [get_submodule] and by
    the helper, to the very submodule it is listed with (the root under the
    empty name). *)
Theorem listed_names_resolve (m : nn_Module) (key : string) (sub : nn_Module) :
  tree.well_formed m →
  generic.reaches_children getattr m →
  (key, sub) ∈ named_modules "" m →
  generic.get_submodule getattr m key = Ok sub
  ∧ ∃ parent,
      generic.get_submodules getattr m key
      = Ok (parent, sub, as_stated.last_component key).
Proof.
  intros Hwf Hreach Hin. rewrite named_modules_paths in Hin.
  apply list_elem_of_fmap in Hin as ([path sub'] & [= -> ->] & Hin).
  destruct (named_paths_descend _ Hwf Hreach _ _ Hin) as [Hatoms Hdesc]. simpl.
  rewrite (foldl_qualify_join _ Hatoms).
  assert (generic.get_submodule getattr m (join "." path) = Ok sub') as Hkey.
  { rewrite generic_get_submodule_join.
    - case_decide as Hj; [|done]. apply join_empty in Hj as [->| ->].
      + simpl in Hdesc. by injection Hdesc as ->.
      + by apply Forall_cons in Hatoms as [[? _] _].
    - eapply Forall_impl; [exact Hatoms|]. by intros x [_ Hx]. }
  split; [done|].
  destruct (generic_dotted_prefix_resolves _ _ _ Hkey) as [parent Hp].
  exists parent. unfold generic.get_submodules.
  by rewrite join_but_last_split, item_last_split, Hp, Hkey.
Qed.

End any_lookup.

Lemma helper_target_is_attribute_of_parent_witness :
  getattr_module examples.base "layer" = Ok (Mod [("weight", examples.weights 1)] []).
Proof.
  refine (proj1 (helper_target_is_attribute_of_parent getattr_module
                   examples.base "layer" examples.base _ "layer" _ _)).
  - reflexivity.
  - simpl. discriminate.
Defined.

Lemma well_formed_base : tree.well_formed examples.base.
Proof.
  simpl. repeat split; repeat constructor; try done.
  - apply not_elem_of_nil.
Qed.

Lemma getattr_module_reaches_children m :
  generic.reaches_children getattr_module m.
Proof.
  intros path x _ name child Hget. unfold getattr_module. by rewrite Hget.
Qed.

Lemma listed_names_resolve_witness :
  generic.get_submodule getattr_module examples.base "layer"
  = Ok (Mod [("weight", examples.weights 1)] []).
Proof.
  refine (proj1 (listed_names_resolve getattr_module examples.base "layer" _
                   well_formed_base (getattr_module_reaches_children _) _)).
  simpl. apply elem_of_cons. right. apply list_elem_of_singleton. reflexivity.
Defined.

(* ===================================================================== *)
(** ** [generate]: how it fails, and how calls compose *)
(* ===================================================================== *)

(** The three places where [generate] can stop. *)
Lemma generate_run ext queries self :
  text_generation.generate ext queries self
  = match text_generation.tokenizer ext (queries.*1) with
    | Raise e => (Raise e, self)
    | Ok raw =>
        match for_each (queries.*2) bind_delta self with
        | (Raise e, bound) => (Raise e, bound)
        | (Ok _, bound) =>
            match text_generation.base_generate ext
                    (text_generation.base_model bound) (on_cuda raw) with
            | Raise e =>
                (Raise e,
                 text_generation.record_call
                   (text_generation.Forward (text_generation.base_model bound)
                      (on_cuda raw)) bound)
            | Ok out =>
                (Ok out,
                 text_generation.record_call (text_generation.Print out)
                   (text_generation.record_call
                      (text_generation.Forward (text_generation.base_model bound)
                         (on_cuda raw)) bound))
            end
        end
    end.
Proof.
  rewrite generate_unfold. unfold and_then at 1. unfold gets at 1.
  unfold and_then at 1. unfold lift at 1. rewrite prepare_batch_eq.
  destruct (text_generation.tokenizer ext (queries.*1)) as [raw|e]; [|done].
  simpl bind. cbv beta iota. unfold and_then at 1.
  destruct (for_each (queries.*2) bind_delta self) as [[[]|e] bound]; [|done].
  unfold and_then, gets, modify, lift, ret. simpl.
  by destruct (text_generation.base_generate ext _ _).
Qed.

Lemma bind_modules_raise_kind l s e s' :
  for_each l bind_module s = (Raise e, s') →
  (∃ item, e = AttributeError item) ∨ e = TypeError "delta".
Proof.
  revert s. induction l as [|[key module] rest IH]; intros s; cbn [for_each]; [done|].
  unfold and_then at 1. rewrite bind_module_step.
  destruct (text_generation._get_submodules _ key) as [t|e0] eqn:E.
  - case_decide; [by intros [= <- <-]; right|]. apply IH.
  - intros [= <- <-]. left. by eapply _get_submodules_raises.
Qed.

Lemma bind_deltas_raise_kind deltas s e s' :
  for_each deltas bind_delta s = (Raise e, s') →
  (∃ d, d ∈ deltas ∧ text_generation.model_pool s !! d = None ∧ e = KeyError d)
  ∨ (∃ item, e = AttributeError item) ∨ e = TypeError "delta".
Proof.
  revert s. induction deltas as [|d rest IH]; intros s; cbn [for_each]; [done|].
  unfold and_then at 1. destruct (bind_delta d s) as [[[]|e0] s1] eqn:E.
  - intros Hrest. pose proof (bind_delta_rebound _ _ _ _ E) as Hreb.
    destruct (rebound_pool _ _ Hreb) as (Hpool & _).
    destruct (IH _ Hrest) as [(d' & Hin & Hnone & ->)|Hother]; [|by right].
    left. exists d'. rewrite <- Hpool. split; [by apply elem_of_cons; right|done].
  - intros [= <- <-]. unfold bind_delta, and_then, text_generation.pool_getitem in E.
    destruct (text_generation.model_pool s !! d) as [entry|] eqn:Hd.
    + right. by eapply bind_modules_raise_kind.
    + injection E as <- <-. left. exists d. split; [by apply elem_of_cons; left|done].
Qed.

Lemma bind_deltas_missing deltas s d :
  d ∈ deltas → text_generation.model_pool s !! d = None →
  ∃ e s', for_each deltas bind_delta s = (Raise e, s').
Proof.
  revert s. induction deltas as [|d0 rest IH]; intros s Hin Hnone.
  { by apply elem_of_nil in Hin. }
  cbn [for_each]. unfold and_then at 1.
  destruct (bind_delta d0 s) as [[[]|e0] s1] eqn:E; [|eauto].
  pose proof (bind_delta_rebound _ _ _ _ E) as Hreb.
  destruct (rebound_pool _ _ Hreb) as (Hpool & _).
  apply elem_of_cons in Hin as [->|Hin].
  - unfold bind_delta, and_then, text_generation.pool_getitem in E.
    by rewrite Hnone in E.
  - apply IH; [done|]. by rewrite Hpool.
Qed.

(** A tokenizer failure stops [generate] before anything else: the error is
    raised as it is and the pipeline, base model included, is untouched. *)
Theorem generate_tokenizer_failure ext queries self e :
  text_generation.tokenizer ext (queries.*1) = Raise e →
  text_generation.generate ext queries self = (Raise e, self).
Proof. intros Htok. by rewrite generate_run, Htok. Qed.

(** [generate] never loads a delta: if a requested identifier is not in the
    pool the call fails without any forward pass and without touching the
    pool or the record of calls; and when the first request's identifier is
    the missing one, the failure is [KeyError] of that identifier with the
    pipeline untouched. *)
Theorem generate_missing_delta ext queries self raw d :
  text_generation.tokenizer ext (queries.*1) = Ok raw →
  d ∈ queries.*2 →
  text_generation.model_pool self !! d = None →
  (∃ e self',
     text_generation.generate ext queries self = (Raise e, self')
     ∧ text_generation.calls self' = text_generation.calls self
     ∧ text_generation.model_pool self' = text_generation.model_pool self)
  ∧ (head (queries.*2) = Some d →
       text_generation.generate ext queries self = (Raise (KeyError d), self)).
Proof.
  intros Htok Hin Hnone. split.
  - destruct (bind_deltas_missing _ _ _ Hin Hnone) as (e & s' & Hloop).
    exists e, s'. rewrite generate_run, Htok, Hloop. split; [done|].
    assert (rebound self s') as Hreb.
    { eapply for_each_rebound; [|exact Hloop]. intros. by eapply bind_delta_rebound. }
    by destruct (rebound_pool _ _ Hreb) as (-> & _ & -> & _).
  - intros Hhead. rewrite generate_run, Htok.
    destruct (queries.*2) as [|d0 rest]; [done|]. injection Hhead as ->.
    assert (bind_delta d self = (Raise (KeyError d), self)) as Hstep.
    { unfold bind_delta, and_then, text_generation.pool_getitem. by rewrite Hnone. }
    cbn [for_each]. unfold and_then at 1. by rewrite Hstep.
Qed.

Lemma generate_missing_delta_witness :
  text_generation.generate examples.collaborators [("hi", "d2")]
    (examples.loaded ["d1"])
  = (Raise (KeyError "d2"), examples.loaded ["d1"]).
Proof.
  refine (proj2 (generate_missing_delta examples.collaborators [("hi", "d2")]
                   (examples.loaded ["d1"]) _ "d2" _ _ _) _).
  - reflexivity.
  - apply list_elem_of_singleton. reflexivity.
  - reflexivity.
  - reflexivity.
Defined.

Lemma generate_tokenizer_failure_witness :
  text_generation.generate
    {| text_generation.tokenizer := λ _, Raise (ExternalError "no prompts");
       text_generation.base_generate :=
         text_generation.base_generate examples.collaborators;
       text_generation.from_compressed :=
         text_generation.from_compressed examples.collaborators |}
    [] (examples.loaded ["d1"])
  = (Raise (ExternalError "no prompts"), examples.loaded ["d1"]).
Proof.
  apply (generate_tokenizer_failure _ [] (examples.loaded ["d1"])).
  reflexivity.
Defined.

(** Every failure of [generate] is one of three: the tokenizer's error,
    with the pipeline untouched; a binding error ([KeyError] of a requested
    identifier that is not resident, [AttributeError] of a name that does
    not resolve, or [TypeError] for a parameter called [delta]), with no
    forward pass and at most the attribute [delta] changed; or the base
    model's own error, with the forward pass recorded, nothing printed and
    the deltas left bound. *)
Theorem generate_failure_modes ext queries self e self' :
  text_generation.generate ext queries self = (Raise e, self') →
  (text_generation.tokenizer ext (queries.*1) = Raise e ∧ self' = self)
  ∨ (rebound self self'
     ∧ ((∃ d, d ∈ queries.*2 ∧ text_generation.model_pool self !! d = None
              ∧ e = KeyError d)
        ∨ (∃ item, e = AttributeError item) ∨ e = TypeError "delta"))
  ∨ (∃ raw,
       text_generation.tokenizer ext (queries.*1) = Ok raw
       ∧ text_generation.base_generate ext (text_generation.base_model self')
           (on_cuda raw) = Raise e
       ∧ text_generation.calls self'
         = text_generation.calls self
           ++ [text_generation.Forward (text_generation.base_model self')
                 (on_cuda raw)]).
Proof.
  rewrite generate_run.
  destruct (text_generation.tokenizer ext (queries.*1)) as [raw|e0] eqn:Htok.
  2:{ intros [= <- <-]. by left. }
  destruct (for_each (queries.*2) bind_delta self) as [[[]|e0] bound] eqn:Hloop.
  - assert (rebound self bound) as Hreb.
    { eapply for_each_rebound; [|exact Hloop]. intros. by eapply bind_delta_rebound. }
    destruct (rebound_pool _ _ Hreb) as (_ & _ & Hcalls & _).
    destruct (text_generation.base_generate ext _ _) as [out|e0] eqn:Hgen; [done|].
    intros [= <- <-]. right. right. exists raw. simpl. by rewrite Hcalls.
  - intros [= <- <-]. right. left. split.
    + eapply for_each_rebound; [|exact Hloop]. intros. by eapply bind_delta_rebound.
    + by eapply bind_deltas_raise_kind.
Qed.

Lemma generate_failure_modes_witness :
  (text_generation.tokenizer examples.collaborators ["hi"] = Raise (KeyError "d2")
   ∧ examples.loaded ["d1"] = examples.loaded ["d1"])
  ∨ (rebound (examples.loaded ["d1"]) (examples.loaded ["d1"])
     ∧ ((∃ d, d ∈ ["d2"]
              ∧ text_generation.model_pool (examples.loaded ["d1"]) !! d = None
              ∧ KeyError "d2" = KeyError d)
        ∨ (∃ item, KeyError "d2" = AttributeError item)
        ∨ KeyError "d2" = TypeError "delta"))
  ∨ (∃ raw,
       text_generation.tokenizer examples.collaborators ["hi"] = Ok raw
       ∧ text_generation.base_generate examples.collaborators
           (text_generation.base_model (examples.loaded ["d1"])) (on_cuda raw)
         = Raise (KeyError "d2")
       ∧ text_generation.calls (examples.loaded ["d1"])
         = text_generation.calls (examples.loaded ["d1"])
           ++ [text_generation.Forward
                 (text_generation.base_model (examples.loaded ["d1"]))
                 (on_cuda raw)]).
Proof.
  apply (generate_failure_modes examples.collaborators [("hi", "d2")]
           (examples.loaded ["d1"]) (KeyError "d2") (examples.loaded ["d1"])).
  reflexivity.
Defined.

(** Loading and then generating uses what was just loaded: after a
    successful [load_delta] of an identifier, a successful [generate] for
    that identifier leaves the base model's [delta] bound to the last
    module of the checkpoint this very load returned (whatever the pool
    held for the identifier before), and has called the adapter once and
    the base model once. *)
Theorem load_then_generate_binds_loaded ext d prompt self s1 out s2 :
  text_generation.load_delta ext d self = (Ok tt, s1) →
  text_generation.generate ext [(prompt, d)] s1 = (Ok out, s2) →
  ∃ loaded key module,
    text_generation.from_compressed ext (text_generation.created self) d = Ok loaded
    ∧ last (named_modules "" loaded) = Some (key, module)
    ∧ text_generation.base_model s2
      = with_delta (text_generation.base_model self) module
    ∧ adapter_loads (text_generation.calls s2)
      = adapter_loads (text_generation.calls self) ++ [d]
    ∧ length (forward_batches (text_generation.calls s2))
      = S (length (forward_batches (text_generation.calls self))).
Proof.
  rewrite load_delta_step.
  destruct (text_generation.from_compressed ext _ d) as [loaded|] eqn:Hload; [|done].
  intros [= <-] Hgen.
  apply generate_ok in Hgen as (raw & bound & _ & Hloop & _ & ->).
  apply bind_deltas_ok in Hloop. simpl in Hloop.
  destruct Hloop as (entry & key & module & Hpool & Hlast & ->).
  rewrite lookup_insert_eq in Hpool. injection Hpool as <-. simpl in *.
  exists loaded, key, module. repeat split; try done.
  - rewrite !adapter_loads_app. simpl. by rewrite !app_nil_r.
  - rewrite !forward_batches_app, !length_app. simpl. lia.
Qed.

Lemma load_then_generate_binds_loaded_witness :
  ∃ loaded key module,
    text_generation.from_compressed examples.collaborators 0 "d1" = Ok loaded
    ∧ last (named_modules "" loaded) = Some (key, module)
    ∧ text_generation.base_model
        (text_generation.generate examples.collaborators [("hi", "d1")]
           (examples.loaded ["d1"])).2
      = with_delta examples.base module.
Proof.
  destruct (load_then_generate_binds_loaded examples.collaborators "d1" "hi"
              (text_generation.init examples.base) (examples.loaded ["d1"])
              _ _ eq_refl (surjective_pairing _))
    as (loaded & key & module & H1 & H2 & H3 & _).
  exists loaded, key, module. repeat split; assumption.
Defined.

(** Binding is idempotent across calls: when [generate] succeeds twice in a
    row on the same requests, the second call leaves the base model and the
    pool exactly as the first did, and returns the same output. *)
Theorem generate_twice_same_binding ext queries self out1 s1 out2 s2 :
  text_generation.generate ext queries self = (Ok out1, s1) →
  text_generation.generate ext queries s1 = (Ok out2, s2) →
  text_generation.base_model s2 = text_generation.base_model s1
  ∧ text_generation.model_pool s2 = text_generation.model_pool self
  ∧ out2 = out1.
Proof.
  intros H1 H2.
  apply generate_ok in H1 as (raw1 & b1 & Htok1 & Hloop1 & Hgen1 & ->).
  apply generate_ok in H2 as (raw2 & b2 & Htok2 & Hloop2 & Hgen2 & ->).
  assert (raw2 = raw1) as -> by congruence.
  assert (rebound self b1) as Hreb1.
  { eapply for_each_rebound; [|exact Hloop1]. intros. by eapply bind_delta_rebound. }
  destruct (rebound_pool _ _ Hreb1) as (Hpool1 & _).
  apply bind_deltas_ok in Hloop1. apply bind_deltas_ok in Hloop2.
  assert (text_generation.base_model b2 = text_generation.base_model b1
          ∧ text_generation.model_pool b2 = text_generation.model_pool self)
    as [Hbase Hpool].
  { destruct (last (queries.*2)) as [delta|].
    - destruct Hloop1 as (e1 & k1 & m1 & Hp1 & Hl1 & ->).
      destruct Hloop2 as (e2 & k2 & m2 & Hp2 & Hl2 & ->).
      simpl in Hp2. rewrite Hp1 in Hp2. injection Hp2 as <-.
      rewrite Hl1 in Hl2. injection Hl2 as <- <-. simpl.
      by rewrite with_delta_twice.
    - by subst b1 b2. }
  simpl. split; [done|]. split; [done|]. rewrite Hbase in Hgen2. congruence.
Qed.

Lemma generate_twice_same_binding_witness :
  text_generation.base_model
    (text_generation.generate examples.collaborators [("a", "d1"); ("b", "d2")]
       (text_generation.generate examples.collaborators [("a", "d1"); ("b", "d2")]
          (examples.loaded ["d1"; "d2"])).2).2
  = text_generation.base_model
      (text_generation.generate examples.collaborators [("a", "d1"); ("b", "d2")]
         (examples.loaded ["d1"; "d2"])).2.
Proof.
  refine (proj1 (generate_twice_same_binding examples.collaborators
                   [("a", "d1"); ("b", "d2")] (examples.loaded ["d1"; "d2"])
                   _ _ _ _ (surjective_pairing _) (surjective_pairing _))).
Defined.

Lemma probe_preserves_environment_witness :
  utils.environ
    (utils.get_available_gpus examples.four_gpus (examples.process_with None)).2
    !! "CUDA_VISIBLE_DEVICES"
  = utils.environ (examples.process_with None) !! "CUDA_VISIBLE_DEVICES".
Proof.
  apply (proj1 (probe_preserves_environment examples.four_gpus
                  (examples.process_with None))).
  discriminate.
Defined.
